(** * fitsenior: private chat and enrolled-classes screens

    A shallow embedding of [src/pages/PrivateChat.tsx] and
    [src/pages/MyClasses.tsx].  The two React components are modelled as
    state transformers over an explicit world: the component state held by
    React, the hosted database behind the Supabase client, the realtime
    channels registered with that client, and a chronological log of every
    externally visible effect (backend requests, toasts, console output).

    The Supabase client and the React runtime are external collaborators;
    their behaviour is modelled in the sections named after them, and every
    definition named after a source function follows that function line by
    line. *)

From Stdlib Require Import String Ascii List NArith Lia.
From Stdlib Require Import Sorting.Sorted Sorting.Permutation.
From stdpp Require Import base option list sorting strings gmap.

Local Open Scope string_scope.
Local Open Scope list_scope.

(* ===================================================================== *)
(** ** JavaScript values *)
(* ===================================================================== *)

(** The text typed into the message box is the only string the code
    inspects (with [trim]); it is kept as its sequence of UTF-16 code
    units.  Identities, names, URLs and error texts are only ever compared
    or passed along, and are plain strings. *)
Definition jsstring := list N.

(** Code units of a literal whose characters are all below U+0100. *)
Fixpoint js (s : string) : jsstring :=
  match s with
  | EmptyString => []
  | String a rest => N_of_ascii a :: js rest
  end.

(** ECMAScript WhiteSpace and LineTerminator code points, the characters
    [String.prototype.trim] strips. *)
Definition is_js_whitespace (c : N) : bool :=
  ((c =? 0x0009) || (c =? 0x000A) || (c =? 0x000B) || (c =? 0x000C) ||
   (c =? 0x000D) || (c =? 0x0020) || (c =? 0x00A0) || (c =? 0x1680) ||
   ((0x2000 <=? c) && (c <=? 0x200A)) ||
   (c =? 0x2028) || (c =? 0x2029) || (c =? 0x202F) || (c =? 0x205F) ||
   (c =? 0x3000) || (c =? 0xFEFF))%N.

Fixpoint trimStart (s : jsstring) : jsstring :=
  match s with
  | c :: rest => if is_js_whitespace c then trimStart rest else s
  | [] => []
  end.

Definition trimEnd (s : jsstring) : jsstring := rev (trimStart (rev s)).

Definition trim (s : jsstring) : jsstring := trimEnd (trimStart s).

(** Truthiness of a string: only the empty string is falsy. *)
Definition truthy_string (s : jsstring) : bool :=
  match s with [] => false | _ :: _ => true end.

(** [[...new Set(xs)]]: first occurrences, in insertion order. *)
Fixpoint set_spread (seen xs : list string) : list string :=
  match xs with
  | [] => []
  | x :: rest =>
      if bool_decide (x ∈ seen) then set_spread seen rest
      else x :: set_spread (x :: seen) rest
  end.

Definition dedupe (xs : list string) : list string := set_spread [] xs.

(** A JavaScript error value; the code reads only its [message]. *)
Record Error := { message : string }.

(** Instants as milliseconds since the epoch.  The source carries them as
    ISO-8601 text, which it never parses or compares; only the database
    orders by them. *)
Definition timestamp := N.

(* ===================================================================== *)
(** ** Data model *)
(* ===================================================================== *)

Inductive Role := student | professional.

Module Contact.
(** [interface Contact] *)
Record t := {
  id : string;
  name : string;
  type : Role;
  avatar_url : option string;
}.
End Contact.

Module Message.
(** [Tables<"private_messages">] *)
Record t := {
  id : string;
  sender_id : string;
  recipient_id : string;
  content : jsstring;
  read : bool;
  created_at : timestamp;
}.

Definition mark_read (m : t) : t :=
  {| id := id m; sender_id := sender_id m; recipient_id := recipient_id m;
     content := content m; read := true; created_at := created_at m |}.
End Message.

Module Enrollment.
Record t := { student_id : string; class_id : string; status : string }.
End Enrollment.

Module Class.
Record t := { id : string; professional_id : string }.
End Class.

Module Profile.
(** A row of [students] or of [professionals], restricted to the
    columns the chat screen selects. *)
Record t := {
  user_id : string;
  full_name : string;
  avatar_url : option string;
}.
End Profile.

#[global] Instance Role_eq_dec : EqDecision Role.
Proof. solve_decision. Defined.

#[global] Instance Contact_eq_dec : EqDecision Contact.t.
Proof. solve_decision. Defined.

#[global] Instance Message_eq_dec : EqDecision Message.t.
Proof. solve_decision. Defined.

Record Database := {
  enrollments : list Enrollment.t;
  classes : list Class.t;
  professionals : list Profile.t;
  students : list Profile.t;
  private_messages : list Message.t;
}.

Definition with_private_messages (ms : list Message.t) (d : Database) : Database :=
  {| enrollments := enrollments d; classes := classes d;
     professionals := professionals d; students := students d;
     private_messages := ms |}.

(* ===================================================================== *)
(** ** The component state of [PrivateChat] *)
(* ===================================================================== *)

(** One field per [useState] of the component. *)
Record Screen := {
  currentUserId : string;
  userType : option Role;
  contacts : list Contact.t;
  selectedContact : option Contact.t;
  messages : list Message.t;
  newMessage : jsstring;
  loading : bool;
  sending : bool;
}.

Definition initial_screen : Screen :=
  {| currentUserId := ""; userType := None; contacts := [];
     selectedContact := None; messages := []; newMessage := [];
     loading := true; sending := false |}.

Definition set_contacts (v : list Contact.t) (s : Screen) : Screen :=
  {| currentUserId := currentUserId s; userType := userType s; contacts := v;
     selectedContact := selectedContact s; messages := messages s;
     newMessage := newMessage s; loading := loading s; sending := sending s |}.

Definition set_selectedContact (v : option Contact.t) (s : Screen) : Screen :=
  {| currentUserId := currentUserId s; userType := userType s;
     contacts := contacts s; selectedContact := v; messages := messages s;
     newMessage := newMessage s; loading := loading s; sending := sending s |}.

Definition set_messages (v : list Message.t) (s : Screen) : Screen :=
  {| currentUserId := currentUserId s; userType := userType s;
     contacts := contacts s; selectedContact := selectedContact s;
     messages := v; newMessage := newMessage s; loading := loading s;
     sending := sending s |}.

Definition set_newMessage (v : jsstring) (s : Screen) : Screen :=
  {| currentUserId := currentUserId s; userType := userType s;
     contacts := contacts s; selectedContact := selectedContact s;
     messages := messages s; newMessage := v; loading := loading s;
     sending := sending s |}.

Definition set_sending (v : bool) (s : Screen) : Screen :=
  {| currentUserId := currentUserId s; userType := userType s;
     contacts := contacts s; selectedContact := selectedContact s;
     messages := messages s; newMessage := newMessage s; loading := loading s;
     sending := v |}.

(* ===================================================================== *)
(** ** The Supabase client *)
(* ===================================================================== *)

(** The requests the chat screen builds, one constructor per query shape.
    A one-column projection is represented by the column's values, so the
    source's [rows.map((r) => r.col)] is the identity on them. *)
Inductive Request :=
  (** [from("enrollments").select("class_id").eq("student_id", _).eq("status", "active")] *)
  | SelectActiveClassIds (student_id : string)
  (** [from("classes").select("professional_id").in("id", _)] *)
  | SelectProfessionalIds (class_ids : list string)
  (** [from("professionals").select("user_id, full_name, avatar_url").in("user_id", _)] *)
  | SelectProfessionals (user_ids : list string)
  (** [from("classes").select("id").eq("professional_id", _)] *)
  | SelectClassIds (professional_id : string)
  (** [from("enrollments").select("student_id").in("class_id", _).eq("status", "active")] *)
  | SelectActiveStudentIds (class_ids : list string)
  (** [from("students").select("user_id, full_name, avatar_url").in("user_id", _)] *)
  | SelectStudents (user_ids : list string)
  (** [from("private_messages").select("*").or("and(sender_id.eq.a,recipient_id.eq.b),and(sender_id.eq.b,recipient_id.eq.a)").order("created_at", {ascending: true})] *)
  | SelectConversation (a b : string)
  (** [from("private_messages").insert({sender_id, recipient_id, content})] *)
  | InsertMessage (sender_id recipient_id : string) (content : jsstring)
  (** [from("private_messages").update({read: true}).eq("recipient_id", _).eq("sender_id", _).eq("read", false)] *)
  | MarkRead (recipient_id sender_id : string).

Definition result (r : Request) : Type :=
  match r with
  | SelectActiveClassIds _ | SelectProfessionalIds _
  | SelectClassIds _ | SelectActiveStudentIds _ => list string
  | SelectProfessionals _ | SelectStudents _ => list Profile.t
  | SelectConversation _ _ => list Message.t
  | InsertMessage _ _ _ | MarkRead _ _ => unit
  end.

(** What the network and the server make of one request. *)
Inductive Fate :=
  | Honest                      (* served; [{data, error: null}] *)
  | NullData                    (* served; the reply carries [data: null] *)
  | ErrorResult (e : Error)     (* not served; [{data: null, error: e}] *)
  | Rejects (e : Error).        (* not served; the awaited promise rejects *)

Definition is_failure (f : Fate) : bool :=
  match f with
  | ErrorResult _ | Rejects _ => true
  | Honest | NullData => false
  end.

Record Response (A : Type) := { data : option A; error : option Error }.
Arguments data {A} _.
Arguments error {A} _.

Inductive Settled (A : Type) :=
  | Fulfilled (r : Response A)
  | Rejected (e : Error).
Arguments Fulfilled {A} _.
Arguments Rejected {A} _.

(** A realtime channel listening for [INSERT] on [private_messages] with
    the filter [sender_id=eq.<filter_sender_id>].  The callback is a
    closure over the [currentUserId] of the render that created it. *)
Record Channel := {
  topic : string;
  filter_sender_id : string;
  closure_currentUserId : string;
}.

(** The function [subscribeToMessages] returns:
    [() => { supabase.removeChannel(channel) }]. *)
Inductive Cleanup := RemoveChannel (ch : Channel).

#[global] Instance Channel_eq_dec : EqDecision Channel.
Proof. solve_decision. Defined.

Inductive Event :=
  | Called (r : Request) (f : Fate)          (* a request left the client *)
  | ConsoleError (label : string) (e : Error)
  | Toast (title description : string) (variant : option string)
  | UnhandledRejection (e : Error).

Definition is_toast (ev : Event) : bool :=
  match ev with Toast _ _ _ => true | _ => false end.

Definition is_mark_read (ev : Event) : bool :=
  match ev with Called (MarkRead _ _) _ => true | _ => false end.

Definition is_call (ev : Event) : bool :=
  match ev with Called _ _ => true | _ => false end.

Definition failed_call (ev : Event) : bool :=
  match ev with Called _ f => is_failure f | _ => false end.

(* ===================================================================== *)
(** ** The world *)
(* ===================================================================== *)

Record World := {
  ui : Screen;                      (* React state of the component *)
  db : Database;                    (* the hosted database *)
  plan : list Fate;                 (* fates of the coming requests *)
  channels : list Channel;          (* channels joined on the client *)
  effect_cleanup : option Cleanup;  (* what React holds for the
                                       [selectedContact] effect *)
  clock : timestamp;
  uuid_source : nat → string;
  uuid_next : nat;
  log : list Event;
}.

Definition with_ui (f : Screen → Screen) (w : World) : World :=
  {| ui := f (ui w); db := db w; plan := plan w; channels := channels w;
     effect_cleanup := effect_cleanup w; clock := clock w;
     uuid_source := uuid_source w; uuid_next := uuid_next w; log := log w |}.

Definition with_db (f : Database → Database) (w : World) : World :=
  {| ui := ui w; db := f (db w); plan := plan w; channels := channels w;
     effect_cleanup := effect_cleanup w; clock := clock w;
     uuid_source := uuid_source w; uuid_next := uuid_next w; log := log w |}.

Definition with_plan (p : list Fate) (w : World) : World :=
  {| ui := ui w; db := db w; plan := p; channels := channels w;
     effect_cleanup := effect_cleanup w; clock := clock w;
     uuid_source := uuid_source w; uuid_next := uuid_next w; log := log w |}.

Definition with_channels (f : list Channel → list Channel) (w : World) : World :=
  {| ui := ui w; db := db w; plan := plan w; channels := f (channels w);
     effect_cleanup := effect_cleanup w; clock := clock w;
     uuid_source := uuid_source w; uuid_next := uuid_next w; log := log w |}.

Definition with_effect_cleanup (c : option Cleanup) (w : World) : World :=
  {| ui := ui w; db := db w; plan := plan w; channels := channels w;
     effect_cleanup := c; clock := clock w;
     uuid_source := uuid_source w; uuid_next := uuid_next w; log := log w |}.

Definition with_uuid_next (n : nat) (w : World) : World :=
  {| ui := ui w; db := db w; plan := plan w; channels := channels w;
     effect_cleanup := effect_cleanup w; clock := clock w;
     uuid_source := uuid_source w; uuid_next := n; log := log w |}.

Definition with_log (f : list Event → list Event) (w : World) : World :=
  {| ui := ui w; db := db w; plan := plan w; channels := channels w;
     effect_cleanup := effect_cleanup w; clock := clock w;
     uuid_source := uuid_source w; uuid_next := uuid_next w; log := f (log w) |}.

(* ===================================================================== *)
(** ** Computations: state plus JavaScript exceptions *)
(* ===================================================================== *)

Inductive Completion (A : Type) :=
  | Returns (a : A)
  | Throws (e : Error).
Arguments Returns {A} _.
Arguments Throws {A} _.

Definition M (A : Type) : Type := World → Completion A * World.

#[global] Instance M_ret : MRet M := λ A a w, (Returns a, w).

#[global] Instance M_bind : MBind M := λ A B k m w,
  match m w with
  | (Returns a, w') => k a w'
  | (Throws e, w') => (Throws e, w')
  end.

Definition get : M World := λ w, (Returns w, w).

Definition update (f : World → World) : M unit := λ w, (Returns tt, f w).

Definition throw {A} (e : Error) : M A := λ w, (Throws e, w).

(** [try { m } catch (e) { h(e) }] *)
Definition try_catch {A} (m : M A) (h : Error → M A) : M A := λ w,
  match m w with
  | (Throws e, w') => h e w'
  | done => done
  end.

(** [m finally { f }]: [f] runs on both exits; the completion of [m]
    stands unless [f] itself throws. *)
Definition finally {A} (m : M A) (f : M unit) : M A := λ w,
  match m w with
  | (c, w') =>
      match f w' with
      | (Returns _, w'') => (c, w'')
      | (Throws e, w'') => (Throws e, w'')
      end
  end.

(** A promise nobody awaits: a rejection does not reach the caller. *)
Definition detached (m : M unit) : M unit := λ w,
  match m w with
  | (Returns _, w') => (Returns tt, w')
  | (Throws e, w') => (Returns tt, with_log (λ l, l ++ [UnhandledRejection e]) w')
  end.

Definition emit (ev : Event) : M unit := update (with_log (λ l, l ++ [ev])).

Definition console_error (label : string) (e : Error) : M unit :=
  emit (ConsoleError label e).

Definition toast (title description : string) (variant : option string) : M unit :=
  emit (Toast title description variant).

(** [crypto.randomUUID()] *)
Definition randomUUID : M string := λ w,
  (Returns (uuid_source w (uuid_next w)), with_uuid_next (S (uuid_next w)) w).

(** [new Date()] *)
Definition Date_now : M timestamp := λ w, (Returns (clock w), w).

Definition setContacts (v : list Contact.t) : M unit := update (with_ui (set_contacts v)).
Definition setMessages (v : list Message.t) : M unit := update (with_ui (set_messages v)).
Definition setNewMessage (v : jsstring) : M unit := update (with_ui (set_newMessage v)).
Definition setSending (v : bool) : M unit := update (with_ui (set_sending v)).

(** The functional form [setMessages((prev) => f(prev))]. *)
Definition setMessages_with (f : list Message.t → list Message.t) : M unit :=
  update (with_ui (λ s, set_messages (f (messages s)) s)).

(* ===================================================================== *)
(** ** The hosted database behind the client *)
(* ===================================================================== *)

(** The [or(and(..),and(..))] filter of the history query. *)
Definition between (a b : string) (m : Message.t) : Prop :=
  (Message.sender_id m = a ∧ Message.recipient_id m = b) ∨
  (Message.sender_id m = b ∧ Message.recipient_id m = a).

(** The three [eq] filters of the mark-read update. *)
Definition unread_from (recipient sender : string) (m : Message.t) : Prop :=
  Message.recipient_id m = recipient ∧ Message.sender_id m = sender ∧
  Message.read m = false.

Definition created_at_le : relation Message.t :=
  λ m1 m2, (Message.created_at m1 ≤ Message.created_at m2)%N.

#[global] Instance created_at_le_dec : RelDecision created_at_le.
Proof. intros m1 m2. unfold created_at_le. apply _. Defined.

Definition active_enrollment_of (sid : string) (e : Enrollment.t) : Prop :=
  Enrollment.student_id e = sid ∧ Enrollment.status e = "active".

Definition active_enrollment_in (class_ids : list string) (e : Enrollment.t) : Prop :=
  Enrollment.class_id e ∈ class_ids ∧ Enrollment.status e = "active".

(** What the server answers to a request it serves, and the state it
    leaves.  Reads return the matching rows in table order, the history
    query sorted by [created_at]; writes return no rows.  An inserted
    message receives the column defaults: a generated [id], [read = false]
    and the current time. *)
Definition serve (r : Request) (w : World) : option (result r) * World :=
  match r return option (result r) * World with
  | SelectActiveClassIds student_id =>
      (Some (Enrollment.class_id <$>
               filter (active_enrollment_of student_id) (enrollments (db w))), w)
  | SelectProfessionalIds class_ids =>
      (Some (Class.professional_id <$>
               filter (λ c, Class.id c ∈ class_ids) (classes (db w))), w)
  | SelectProfessionals user_ids =>
      (Some (filter (λ p, Profile.user_id p ∈ user_ids) (professionals (db w))), w)
  | SelectClassIds professional_id =>
      (Some (Class.id <$>
               filter (λ c, Class.professional_id c = professional_id) (classes (db w))), w)
  | SelectActiveStudentIds class_ids =>
      (Some (Enrollment.student_id <$>
               filter (active_enrollment_in class_ids) (enrollments (db w))), w)
  | SelectStudents user_ids =>
      (Some (filter (λ p, Profile.user_id p ∈ user_ids) (students (db w))), w)
  | SelectConversation a b =>
      (Some (merge_sort created_at_le
               (filter (between a b) (private_messages (db w)))), w)
  | InsertMessage sender recipient text =>
      let row :=
        {| Message.id := uuid_source w (uuid_next w);
           Message.sender_id := sender; Message.recipient_id := recipient;
           Message.content := text; Message.read := false;
           Message.created_at := clock w |} in
      (None,
       with_uuid_next (S (uuid_next w))
         (with_db (λ d, with_private_messages (private_messages d ++ [row]) d) w))
  | MarkRead recipient sender =>
      (None,
       with_db (λ d, with_private_messages
                       ((λ m, if decide (unread_from recipient sender m)
                              then Message.mark_read m else m)
                          <$> private_messages d) d) w)
  end.

(** The fate of the next request: the head of the plan; an exhausted
    plan means an honest server. *)
Definition next_fate (w : World) : Fate :=
  match plan w with
  | [] => Honest
  | f :: _ => f
  end.

(** The world once request [r] has left the client with fate [f]. *)
Definition sent (r : Request) (f : Fate) (w : World) : World :=
  with_log (λ l, l ++ [Called r f]) (with_plan (tail (plan w)) w).

(** The request leaves the client: its fate is drawn and the call logged. *)
Definition dispatch (r : Request) (w : World) : Fate * World :=
  (next_fate w, sent r (next_fate w) w).

(** Building and sending a request yields a promise; this is the value it
    settles to. *)
Definition perform (r : Request) : M (Settled (result r)) := λ w,
  let '(fate, w1) := dispatch r w in
  match fate with
  | Honest =>
      let '(d, w2) := serve r w1 in
      (Returns (Fulfilled {| data := d; error := None |}), w2)
  | NullData =>
      let '(_, w2) := serve r w1 in
      (Returns (Fulfilled {| data := None; error := None |}), w2)
  | ErrorResult e =>
      (Returns (Fulfilled {| data := None; error := Some e |}), w1)
  | Rejects e => (Returns (Rejected e), w1)
  end.

(** [await promise] *)
Definition await {A} (s : Settled A) : M (Response A) :=
  match s with
  | Fulfilled r => mret r
  | Rejected e => throw e
  end.

(** [await supabase.from(..)...] *)
Definition request (r : Request) : M (Response (result r)) :=
  perform r ≫= await.

(** The server is honest for the rest of the run. *)
Definition honest_server (w : World) : Prop := Forall (λ f, f = Honest) (plan w).

(* ===================================================================== *)
(** ** Contact Resolver *)
(* ===================================================================== *)

(** The object literal both [map] callbacks build. *)
Definition contact_of (role : Role) (p : Profile.t) : Contact.t :=
  {| Contact.id := Profile.user_id p; Contact.name := Profile.full_name p;
     Contact.type := role; Contact.avatar_url := Profile.avatar_url p |}.

(** [fetchStudentContacts(userId)] *)
Definition fetchStudentContacts (userId : string) : M unit :=
  try_catch
    (r1 ← request (SelectActiveClassIds userId);
     match error r1 with
     | Some enrollError => throw enrollError
     | None =>
         match data r1 with
         | None | Some [] => setContacts []
         | Some enrollments =>
             let classIds := enrollments in
             r2 ← request (SelectProfessionalIds classIds);
             match error r2 with
             | Some classError => throw classError
             | None =>
                 let professionalIds := dedupe (default [] (data r2)) in
                 match professionalIds with
                 | [] => setContacts []
                 | _ :: _ =>
                     r3 ← request (SelectProfessionals professionalIds);
                     match error r3 with
                     | Some profError => throw profError
                     | None =>
                         let contactsList :=
                           match data r3 with
                           | Some rows => contact_of professional <$> (rows : list Profile.t)
                           | None => []
                           end in
                         setContacts contactsList
                     end
                 end
             end
         end
     end)
    (λ error,
       console_error "Erro ao buscar contatos:" error;;
       setContacts []).

(** [fetchProfessionalContacts(professionalUserId)] *)
Definition fetchProfessionalContacts (professionalUserId : string) : M unit :=
  try_catch
    (r1 ← request (SelectClassIds professionalUserId);
     match error r1 with
     | Some classesError => throw classesError
     | None =>
         match data r1 with
         | None | Some [] => setContacts []
         | Some classes =>
             let classIds := classes in
             r2 ← request (SelectActiveStudentIds classIds);
             match error r2 with
             | Some error => throw error
             | None =>
                 let studentIds := dedupe (default [] (data r2)) in
                 match studentIds with
                 | [] => setContacts []
                 | _ :: _ =>
                     r3 ← request (SelectStudents studentIds);
                     match error r3 with
                     | Some studentsError => throw studentsError
                     | None =>
                         let contactsList :=
                           match data r3 with
                           | Some rows => contact_of student <$> (rows : list Profile.t)
                           | None => []
                           end in
                         setContacts contactsList
                     end
                 end
             end
         end
     end)
    (λ error,
       console_error "Erro ao buscar contatos:" error;;
       setContacts []).

(* ===================================================================== *)
(** ** Chat Session *)
(* ===================================================================== *)

(** [fetchMessages()] *)
Definition fetchMessages : M unit :=
  w ← get;
  match selectedContact (ui w) with
  | None => mret tt
  | Some contact =>
      let me := currentUserId (ui w) in
      r ← request (SelectConversation me (Contact.id contact));
      match error r with
      | Some error => console_error "Error fetching messages:" error
      | None =>
          setMessages (default [] (data r));;
          match data r with
          | Some (_ :: _) =>
              _ ← request (MarkRead me (Contact.id contact));
              mret tt
          | Some [] | None => mret tt
          end
      end
  end.

(** [supabase.removeChannel(channel)]: the channel leaves the client. *)
Fixpoint removeChannel (ch : Channel) (l : list Channel) : list Channel :=
  match l with
  | [] => []
  | x :: rest => if decide (x = ch) then rest else x :: removeChannel ch rest
  end.

(** [subscribeToMessages()]: joins a channel and returns its teardown. *)
Definition subscribeToMessages : M (option Cleanup) :=
  w ← get;
  match selectedContact (ui w) with
  | None => mret None
  | Some contact =>
      let channel :=
        {| topic := "private-chat-" +:+ currentUserId (ui w) +:+ "-"
                      +:+ Contact.id contact;
           filter_sender_id := Contact.id contact;
           closure_currentUserId := currentUserId (ui w) |} in
      update (with_channels (λ l, l ++ [channel]));;
      mret (Some (RemoveChannel channel))
  end.

(** The callback given to [.on("postgres_changes", ...)]. *)
Definition on_insert (ch : Channel) (payload_new : Message.t) : M unit :=
  if bool_decide (Message.recipient_id payload_new = closure_currentUserId ch)
  then setMessages_with (λ prev, prev ++ [payload_new])
  else mret tt.

(** The realtime server applies the channel's [sender_id=eq.] filter and
    hands matching rows to the callback. *)
Definition deliver (ch : Channel) (row : Message.t) : M unit :=
  if bool_decide (Message.sender_id row = filter_sender_id ch)
  then on_insert ch row
  else mret tt.

(** An [INSERT] on [private_messages] is offered to every joined channel. *)
Fixpoint broadcast (chs : list Channel) (row : Message.t) : M unit :=
  match chs with
  | [] => mret tt
  | ch :: rest => deliver ch row;; broadcast rest row
  end.

Definition realtime_insert (row : Message.t) : M unit :=
  w ← get; broadcast (channels w) row.

(** The body of [useEffect(() => { ... }, [selectedContact])].  The arrow
    function has no [return]: what [subscribeToMessages] returns is
    dropped and React receives [undefined]. *)
Definition selectedContact_effect : M (option Cleanup) :=
  w ← get;
  (if selectedContact (ui w) is Some _ then
     detached fetchMessages;;
     _ ← subscribeToMessages;
     mret tt
   else mret tt);;
  mret None.

(* --------------------------------------------------------------------- *)
(** *** The React runtime around the effect *)
(* --------------------------------------------------------------------- *)

Definition run_cleanup (c : option Cleanup) : M unit :=
  match c with
  | Some (RemoveChannel ch) => update (with_channels (removeChannel ch))
  | None => mret tt
  end.

(** A click on a contact: [setSelectedContact(contact)] and the commit
    that follows.  When the dependency changed, React runs the cleanup the
    previous run of the effect returned, then the effect, and keeps what
    this run returns. *)
Definition select_contact (contact : Contact.t) : M unit :=
  w ← get;
  if decide (selectedContact (ui w) = Some contact) then mret tt
  else
    update (with_ui (set_selectedContact (Some contact)));;
    run_cleanup (effect_cleanup w);;
    r ← selectedContact_effect;
    update (with_effect_cleanup r).

(** Leaving the screen: React runs the last cleanup it was given. *)
Definition unmount : M unit :=
  w ← get;
  run_cleanup (effect_cleanup w);;
  update (with_effect_cleanup None).

(* --------------------------------------------------------------------- *)
(** *** Sending *)
(* --------------------------------------------------------------------- *)

(** What [handleSendMessage] holds across its [await]: the values its
    closure captured and the promise of the insert. *)
Record SendInFlight := {
  closure_me : string;
  closure_contact : Contact.t;
  closure_newMessage : jsstring;
  insert_promise : Settled unit;
}.

(** [handleSendMessage(e)] up to its [await]: the guard, [setSending(true)]
    and the insert request leaving the client. *)
Definition handleSendMessage_begin : M (option SendInFlight) :=
  w ← get;
  let s := ui w in
  if negb (truthy_string (trim (newMessage s)))
     || negb (bool_decide (is_Some (selectedContact s)))
     || sending s
  then mret None
  else
    match selectedContact s with
    | None => mret None
    | Some contact =>
        setSending true;;
        p ← perform (InsertMessage (currentUserId s) (Contact.id contact)
                       (trim (newMessage s)));
        mret (Some {| closure_me := currentUserId s;
                      closure_contact := contact;
                      closure_newMessage := newMessage s;
                      insert_promise := p |})
    end.

(** [handleSendMessage(e)] from the moment its promise settles. *)
Definition handleSendMessage_resume (f : SendInFlight) : M unit :=
  finally
    (try_catch
       (r ← await (insert_promise f);
        match error r with
        | Some error => throw error
        | None =>
            uuid ← randomUUID;
            now ← Date_now;
            let newMsg :=
              {| Message.id := uuid;
                 Message.sender_id := closure_me f;
                 Message.recipient_id := Contact.id (closure_contact f);
                 Message.content := trim (closure_newMessage f);
                 Message.read := false;
                 Message.created_at := now |} in
            setMessages_with (λ prev, prev ++ [newMsg]);;
            setNewMessage []
        end)
       (λ error,
          toast "Erro ao enviar mensagem" (message error) (Some "destructive")))
    (setSending false).

(** [handleSendMessage(e)] run to completion with nothing in between. *)
Definition handleSendMessage : M unit :=
  f ← handleSendMessage_begin;
  match f with
  | None => mret tt
  | Some f => handleSendMessage_resume f
  end.

(* ===================================================================== *)
(** ** Enrollment Viewer: the notification toggle *)
(* ===================================================================== *)

Module MyClasses.

(** [notifications] is the [{ [key: string]: boolean }] state;
    [effects] records what the component shows and sends. *)
Record State := {
  notifications : gmap string bool;
  effects : list Event;
}.

(** Truthiness of [obj[key]]: a missing key reads [undefined]. *)
Definition truthy (v : option bool) : bool := default false v.

(** [toggleNotifications(classId)] *)
Definition toggleNotifications (classId : string) (s : State) : State :=
  let prev := notifications s in
  let newState := <[classId := negb (truthy (prev !! classId))]> prev in
  {| notifications := newState;
     effects :=
       effects s ++
       [Toast (if truthy (newState !! classId)
               then "Notificações ativadas"
               else "Notificações desativadas")
              (if truthy (newState !! classId)
               then "Você receberá avisos desta turma"
               else "Você não receberá mais avisos desta turma")
              None] |}.

(** The flag as the view reads it: [notifications[classItem.id] ? .. : ..]. *)
Definition flag (s : State) (classId : string) : bool :=
  truthy (notifications s !! classId).

End MyClasses.

(* ===================================================================== *)
(** ** Vocabulary of the statements *)
(* ===================================================================== *)

(** The two confirmations [toggleNotifications] can show. *)
Definition toast_enabled : Event :=
  Toast "Notificações ativadas" "Você receberá avisos desta turma" None.

Definition toast_disabled : Event :=
  Toast "Notificações desativadas"
        "Você não receberá mais avisos desta turma" None.

Definition classes_screen (flags : list (string * bool)) : MyClasses.State :=
  {| MyClasses.notifications := list_to_map flags; MyClasses.effects := [] |}.

(** The two parties of a message are the two parties of a conversation,
    in either direction. *)
Definition parties_are (a b : string) (m : Message.t) : Prop :=
  ({[Message.sender_id m; Message.recipient_id m]} : gset string) = {[a; b]}.

#[global] Instance parties_are_dec (a b : string) (m : Message.t) :
  Decision (parties_are a b m).
Proof. unfold parties_are. apply _. Defined.

(* ===================================================================== *)
(** ** A small database and screen, for running the model *)
(* ===================================================================== *)

Module Sample.

Definition ana : Profile.t :=
  {| Profile.user_id := "ana"; Profile.full_name := "Ana";
     Profile.avatar_url := None |}.

Definition bob : Profile.t :=
  {| Profile.user_id := "bob"; Profile.full_name := "Bob";
     Profile.avatar_url := Some "bob.png" |}.

Definition stu : Profile.t :=
  {| Profile.user_id := "stu"; Profile.full_name := "Stu";
     Profile.avatar_url := None |}.

Definition enrolled (s k st : string) : Enrollment.t :=
  {| Enrollment.student_id := s; Enrollment.class_id := k;
     Enrollment.status := st |}.

Definition class (k p : string) : Class.t :=
  {| Class.id := k; Class.professional_id := p |}.

Definition msg (i s r : string) (unread : bool) (t : timestamp) : Message.t :=
  {| Message.id := i; Message.sender_id := s; Message.recipient_id := r;
     Message.content := js "oi"; Message.read := negb unread;
     Message.created_at := t |}.

(** Stu is actively enrolled in two classes of Ana and has left the one
    class of Bob. *)
Definition database : Database :=
  {| enrollments := [enrolled "stu" "k1" "active";
                     enrolled "stu" "k2" "active";
                     enrolled "stu" "k3" "cancelled"];
     classes := [class "k1" "ana"; class "k2" "ana"; class "k3" "bob"];
     professionals := [ana; bob];
     students := [stu];
     private_messages := [msg "m1" "ana" "stu" true 30%N;
                          msg "m2" "stu" "ana" true 10%N;
                          msg "m3" "bob" "stu" true 5%N;
                          msg "m4" "ana" "stu" false 20%N] |}.

Definition uuid (n : nat) : string :=
  "uuid-" +:+ String (ascii_of_nat (97 + n)) EmptyString.

(** The screen of Stu once initialised, with the given contact list,
    selection and input text. *)
Definition screen (cs : list Contact.t) (sel : option Contact.t)
    (text : jsstring) : Screen :=
  {| currentUserId := "stu"; userType := Some student; contacts := cs;
     selectedContact := sel; messages := []; newMessage := text;
     loading := false; sending := false |}.

Definition world (s : Screen) (fates : list Fate) : World :=
  {| ui := s; db := database; plan := fates; channels := [];
     effect_cleanup := None; clock := 1000%N; uuid_source := uuid;
     uuid_next := 0; log := [] |}.

Definition c_ana : Contact.t := contact_of professional ana.
Definition c_bob : Contact.t := contact_of professional bob.

(** Stu has opened the conversation with Ana. *)
Definition chatting (text : jsstring) (fates : list Fate) : World :=
  world (screen [c_ana; c_bob] (Some c_ana) text) fates.

Definition boom : Error := {| message := "boom" |}.

End Sample.

(** The three conditions under which [handleSendMessage] returns at once. *)
Definition send_blocked (s : Screen) : Prop :=
  trim (newMessage s) = [] ∨ selectedContact s = None ∨ sending s = true.

(** Two submissions in a row, the second before the insert of the first
    has settled; then both continuations run. *)
Definition two_rapid_sends : M unit :=
  first ← handleSendMessage_begin;
  second ← handleSendMessage_begin;
  (if first is Some f then handleSendMessage_resume f else mret tt);;
  (if second is Some f then handleSendMessage_resume f else mret tt).

(** The second sentence of the claim on realtime delivery, as worded: on
    the channel [subscribeToMessages] opens, a row whose sender is the
    current identity is never appended. *)
Definition own_rows_never_appended : Prop :=
  ∀ (w w1 w2 : World) (ch : Channel) (row : Message.t),
    is_Some (selectedContact (ui w)) →
    subscribeToMessages w = (Returns (Some (RemoveChannel ch)), w1) →
    Message.sender_id row = currentUserId (ui w) →
    messages (ui (deliver ch row w2).2) = messages (ui w2).

Module SelfChat.

(** A user who has both profiles and is enrolled in a class of their own
    is their own contact. *)
Definition uli : Profile.t :=
  {| Profile.user_id := "uli"; Profile.full_name := "Uli";
     Profile.avatar_url := None |}.

Definition database : Database :=
  {| enrollments := [Sample.enrolled "uli" "k1" "active"];
     classes := [Sample.class "k1" "uli"];
     professionals := [uli];
     students := [uli];
     private_messages := [] |}.

Definition c_uli : Contact.t := contact_of professional uli.

Definition world : World :=
  {| ui := {| currentUserId := "uli"; userType := Some student;
              contacts := [c_uli]; selectedContact := Some c_uli;
              messages := []; newMessage := js "oi";
              loading := false; sending := false |};
     db := database; plan := []; channels := [];
     effect_cleanup := None; clock := 1000%N; uuid_source := Sample.uuid;
     uuid_next := 0; log := [] |}.

Definition channel : Channel :=
  {| topic := "private-chat-uli-uli"; filter_sender_id := "uli";
     closure_currentUserId := "uli" |}.

Definition row : Message.t := Sample.msg "m1" "uli" "uli" true 1000%N.

End SelfChat.

Module Switching.

(** Stu's screen with both contacts listed and none selected yet. *)
Definition start : World :=
  Sample.world (Sample.screen [Sample.c_ana; Sample.c_bob] None []) [].

(** Stu opens the conversation with Ana, then the one with Bob. *)
Definition switch : M unit :=
  select_contact Sample.c_ana;; select_contact Sample.c_bob.

Definition ch_ana : Channel :=
  {| topic := "private-chat-stu-ana"; filter_sender_id := "ana";
     closure_currentUserId := "stu" |}.

Definition ch_bob : Channel :=
  {| topic := "private-chat-stu-bob"; filter_sender_id := "bob";
     closure_currentUserId := "stu" |}.

(** A message Ana sends after Stu has moved on to Bob. *)
Definition late : Message.t := Sample.msg "m9" "ana" "stu" true 2000%N.

End Switching.

(** The student-side contact set in the words of the specification:
    [owner] owns a class that an active enrollment of the student refers
    to ... *)
Definition owner_of_active_class (d : Database) (sid owner : string) : Prop :=
  ∃ e c, e ∈ enrollments d ∧ Enrollment.student_id e = sid ∧
         Enrollment.status e = "active" ∧
         c ∈ classes d ∧ Class.id c = Enrollment.class_id e ∧
         Class.professional_id c = owner.

(** ... and [k] is the profile (id, full name, avatar, tag "professional")
    of such an owner. *)
Definition professional_contact (d : Database) (sid : string) (k : Contact.t) : Prop :=
  ∃ p, p ∈ professionals d ∧
       owner_of_active_class d sid (Profile.user_id p) ∧
       k = {| Contact.id := Profile.user_id p;
              Contact.name := Profile.full_name p;
              Contact.type := professional;
              Contact.avatar_url := Profile.avatar_url p |}.

Definition has_active_enrollment (d : Database) (sid : string) : Prop :=
  ∃ e, e ∈ enrollments d ∧ Enrollment.student_id e = sid ∧
       Enrollment.status e = "active".

(** The degrade-silently contract of the Contact Resolver, for one run:
    the run completes normally and shows no toast, and if any request it
    sent failed, by error result or by rejection, the contact list ends
    empty and the last trace is the console line. *)
Definition degrades_silently (run : M unit) (w : World) : Prop :=
  (run w).1 = Returns tt ∧
  ∃ new,
    log (run w).2 = log w ++ new ∧
    Forall (λ ev, is_toast ev = false) new ∧
    (Exists (λ ev, failed_call ev = true) new →
     contacts (ui (run w).2) = [] ∧
     ∃ e, last new = Some (ConsoleError "Erro ao buscar contatos:" e)).

(* ===================================================================== *)
(** ** Chat screen: initialisation, deep link and the send button *)
(* ===================================================================== *)

Definition set_currentUserId (v : string) (s : Screen) : Screen :=
  {| currentUserId := v; userType := userType s; contacts := contacts s;
     selectedContact := selectedContact s; messages := messages s;
     newMessage := newMessage s; loading := loading s; sending := sending s |}.

Definition set_userType (v : option Role) (s : Screen) : Screen :=
  {| currentUserId := currentUserId s; userType := v; contacts := contacts s;
     selectedContact := selectedContact s; messages := messages s;
     newMessage := newMessage s; loading := loading s; sending := sending s |}.

Definition set_loading (v : bool) (s : Screen) : Screen :=
  {| currentUserId := currentUserId s; userType := userType s;
     contacts := contacts s; selectedContact := selectedContact s;
     messages := messages s; newMessage := newMessage s; loading := v;
     sending := sending s |}.

Definition setCurrentUserId (v : string) : M unit := update (with_ui (set_currentUserId v)).
Definition setUserType (v : option Role) : M unit := update (with_ui (set_userType v)).
Definition setLoading (v : bool) : M unit := update (with_ui (set_loading v)).

(** What the three promises [initializeChat] awaits before the resolver
    settle to.  [getUser] is [supabase.auth.getUser()], its [data] the
    [id] of [data.user] ([None] for a [null] user); the other two are the
    [maybeSingle] role lookups, their [data] the [user_id] of the row found
    ([None] for [null]).  The code reads no [error] of the three. *)
Record Lookups := {
  getUser : Settled string;
  studentData : Settled string;
  professionalData : Settled string;
}.

(** [initializeChat()] *)
Definition initializeChat (l : Lookups) : M unit :=
  finally
    (try_catch
       (auth ← await (getUser l);
        match data auth with
        | None => throw {| message := "Usuário não autenticado" |}
        | Some user_id =>
            setCurrentUserId user_id;;
            s ← await (studentData l);
            p ← await (professionalData l);
            match data s with
            | Some _ =>
                setUserType (Some student);;
                fetchStudentContacts user_id
            | None =>
                match data p with
                | Some professional_user_id =>
                    setUserType (Some professional);;
                    fetchProfessionalContacts professional_user_id
                | None => mret tt
                end
            end
        end)
       (λ error,
          toast "Erro ao inicializar chat" (message error) (Some "destructive")))
    (setLoading false).

(** Truthiness of a plain string. *)
Definition truthy_id (s : string) : bool :=
  match s with EmptyString => false | String _ _ => true end.

(** The body of [useEffect(() => { ... }, [searchParams, contacts])];
    [contact_param] is [searchParams.get("contact")].  Its
    [setSelectedContact(contact)] is followed by the commit, as for a
    click. *)
Definition searchParams_effect (contact_param : option string) : M unit :=
  w ← get;
  match contact_param with
  | Some contactId =>
      if truthy_id contactId && (0 <? length (contacts (ui w)))%nat
      then
        match List.find (λ c, bool_decide (Contact.id c = contactId))
                        (contacts (ui w)) with
        | Some contact => select_contact contact
        | None => mret tt
        end
      else mret tt
  | None => mret tt
  end.

(** The message form is rendered once [loading] is over and a contact is
    selected ... *)
Definition form_rendered (s : Screen) : bool :=
  negb (loading s) && bool_decide (is_Some (selectedContact s)).

(** ... and its submit button carries
    [disabled={sending || !newMessage.trim()}]. *)
Definition send_button_disabled (s : Screen) : bool :=
  sending s || negb (truthy_string (trim (newMessage s))).

(** The error [initializeChat] throws before it reaches the resolver, if
    any: a rejected session lookup, no user, or a rejected role lookup. *)
Definition lookup_failure (l : Lookups) : option Error :=
  match getUser l with
  | Rejected e => Some e
  | Fulfilled auth =>
      match data auth with
      | None => Some {| message := "Usuário não autenticado" |}
      | Some _ =>
          match studentData l, professionalData l with
          | Rejected e, _ => Some e
          | Fulfilled _, Rejected e => Some e
          | Fulfilled _, Fulfilled _ => None
          end
      end
  end.

(** The toast of the [catch] block of [initializeChat]. *)
Definition init_toast (e : Error) : Event :=
  Toast "Erro ao inicializar chat" (message e) (Some "destructive").

(** The professional-side contact set: [sid] is a student with an active
    enrollment in a class the professional owns ... *)
Definition student_of_professional (d : Database) (pid sid : string) : Prop :=
  ∃ c e, c ∈ classes d ∧ Class.professional_id c = pid ∧
         e ∈ enrollments d ∧ Enrollment.class_id e = Class.id c ∧
         Enrollment.status e = "active" ∧ Enrollment.student_id e = sid.

(** ... and [k] is the profile of such a student, tagged "student". *)
Definition student_contact (d : Database) (pid : string) (k : Contact.t) : Prop :=
  ∃ p, p ∈ students d ∧
       student_of_professional d pid (Profile.user_id p) ∧
       k = {| Contact.id := Profile.user_id p;
              Contact.name := Profile.full_name p;
              Contact.type := student;
              Contact.avatar_url := Profile.avatar_url p |}.

Definition owns_a_class (d : Database) (pid : string) : Prop :=
  ∃ c, c ∈ classes d ∧ Class.professional_id c = pid.

Definition fulfilled (v : option string) : Settled string :=
  Fulfilled {| data := v; error := None |}.

(* ===================================================================== *)
(** ** Enrollment Viewer: loading the enrolled classes *)
(* ===================================================================== *)

Module Columns.
(** The columns selected from the embedded [classes] row. *)
Record t := {
  id : string;
  activity : string;
  schedule : string;
  location : string;
  max_students : N;
  description : option string;
}.
End Columns.

Module Joined.
(** A row of the enrollments query: [id], [class_id] and the embedded
    [classes] object, [null] when the join finds none. *)
Record t := {
  id : string;
  class_id : string;
  classes : option Columns.t;
}.
End Joined.

Module Item.
(** An element of [enrolledClasses]: [{ enrollmentId: e.id, ...e.classes }].
    Spreading [null] adds no property, so the class columns are present
    together or not at all. *)
Record t := {
  enrollmentId : string;
  spread : option Columns.t;
}.

(** [cls.id] used as a property key: [undefined] becomes ["undefined"]. *)
Definition key (cls : t) : string :=
  match spread cls with
  | Some c => Columns.id c
  | None => "undefined"
  end.
End Item.

Module MyClassesScreen.

Record State := {
  loading : bool;
  enrolledClasses : list Item.t;
  view : MyClasses.State;      (* [notifications] and what is shown *)
}.

Definition initial : State :=
  {| loading := true; enrolledClasses := [];
     view := {| MyClasses.notifications := ∅; MyClasses.effects := [] |} |}.

(** [classesData.forEach((cls) => { notifState[cls.id] = true })] on an
    empty object. *)
Definition notifState_of (classesData : list Item.t) : gmap string bool :=
  fold_left (λ notifState cls, <[Item.key cls := true]> notifState) classesData ∅.

(** [fetchEnrolledClasses()]; [getUser] is what [supabase.auth.getUser()]
    settles to and [query user_id] what the enrollments query for that user
    settles to. *)
Definition fetchEnrolledClasses (getUser : Settled string)
    (query : string → Settled (list Joined.t)) (s : State) : State :=
  let attempt : Error + State :=
    match getUser with
    | Rejected e => inl e
    | Fulfilled auth =>
        match data auth with
        | None => inl {| message := "Usuário não autenticado" |}
        | Some user_id =>
            match query user_id with
            | Rejected e => inl e
            | Fulfilled r =>
                match error r with
                | Some enrollError => inl enrollError
                | None =>
                    let classesData :=
                      match data r with
                      | Some enrollments =>
                          (λ e, {| Item.enrollmentId := Joined.id e;
                                   Item.spread := Joined.classes e |})
                            <$> enrollments
                      | None => []
                      end in
                    inr {| loading := loading s;
                           enrolledClasses := classesData;
                           view := {| MyClasses.notifications := notifState_of classesData;
                                      MyClasses.effects := MyClasses.effects (view s) |} |}
                end
            end
        end
    end in
  let caught :=
    match attempt with
    | inr s' => s'
    | inl error =>
        {| loading := loading s; enrolledClasses := enrolledClasses s;
           view := {| MyClasses.notifications := MyClasses.notifications (view s);
                      MyClasses.effects :=
                        MyClasses.effects (view s) ++
                        [Toast "Erro ao carregar turmas" (message error)
                               (Some "destructive")] |} |}
    end in
  {| loading := false; enrolledClasses := enrolledClasses caught;
     view := view caught |}.

(** [toggleNotifications(classId)] on the screen. *)
Definition toggle (classId : string) (s : State) : State :=
  {| loading := loading s; enrolledClasses := enrolledClasses s;
     view := MyClasses.toggleNotifications classId (view s) |}.

(** The load fails with [e]: no session, or the query failed. *)
Inductive LoadFails (getUser : Settled string)
    (query : string → Settled (list Joined.t)) : Error → Prop :=
  | session_rejected e :
      getUser = Rejected e → LoadFails getUser query e
  | no_user auth :
      getUser = Fulfilled auth → data auth = None →
      LoadFails getUser query {| message := "Usuário não autenticado" |}
  | query_rejected auth user_id e :
      getUser = Fulfilled auth → data auth = Some user_id →
      query user_id = Rejected e → LoadFails getUser query e
  | query_error auth user_id r e :
      getUser = Fulfilled auth → data auth = Some user_id →
      query user_id = Fulfilled r → error r = Some e →
      LoadFails getUser query e.

End MyClassesScreen.

(* ===================================================================== *)
(** ** More sample data *)
(* ===================================================================== *)

Module Teaching.

(** Ana signs in: she owns [k1] and [k2], where Stu is enrolled. *)
Definition start : World := Sample.world (Sample.screen [] None []) [].

Definition c_stu : Contact.t := contact_of student Sample.stu.

End Teaching.

Module Loaded.

Definition yoga : Columns.t :=
  {| Columns.id := "k1"; Columns.activity := "Yoga";
     Columns.schedule := "seg 8h"; Columns.location := "Sala 1";
     Columns.max_students := 10%N; Columns.description := None |}.

Definition rows : list Joined.t :=
  [{| Joined.id := "e1"; Joined.class_id := "k1"; Joined.classes := Some yoga |};
   {| Joined.id := "e2"; Joined.class_id := "k9"; Joined.classes := None |}].

Definition query (user_id : string) : Settled (list Joined.t) :=
  Fulfilled {| data := if bool_decide (user_id = "stu") then Some rows else Some [];
               error := None |}.

(** A screen on which the user had switched [k1] off before reloading. *)
Definition before : MyClassesScreen.State :=
  {| MyClassesScreen.loading := true;
     MyClassesScreen.enrolledClasses := [];
     MyClassesScreen.view :=
       {| MyClasses.notifications := {[ "k1" := false ]};
          MyClasses.effects := [] |} |}.

End Loaded.

Module SigningIn.

(** Stu signs in: a session, a student row and no professional row. *)
Definition stu : Lookups :=
  {| getUser := fulfilled (Some "stu"); studentData := fulfilled (Some "stu");
     professionalData := fulfilled None |}.

(** Ana signs in: a professional row only. *)
Definition ana : Lookups :=
  {| getUser := fulfilled (Some "ana"); studentData := fulfilled None;
     professionalData := fulfilled (Some "ana") |}.

(** Stu signs in while the professional lookup is rejected. *)
Definition stu_half : Lookups :=
  {| getUser := fulfilled (Some "stu"); studentData := fulfilled (Some "stu");
     professionalData := Rejected Sample.boom |}.

(** The screen as mounted, over the sample database. *)
Definition start : World :=
  {| ui := initial_screen; db := Sample.database; plan := []; channels := [];
     effect_cleanup := None; clock := 1000%N; uuid_source := Sample.uuid;
     uuid_next := 0; log := [] |}.

End SigningIn.

Module DeepLink.

(** Stu's screen with both contacts listed, before any selection. *)
Definition start : World :=
  Sample.world (Sample.screen [Sample.c_ana; Sample.c_bob] None []) [].

End DeepLink.

(** A session of clicks on contacts, one after the other. *)
Fixpoint select_each (cs : list Contact.t) : M unit :=
  match cs with
  | [] => mret tt
  | c :: rest => select_contact c;; select_each rest
  end.

(** Every click lands on a contact other than the one selected then. *)
Fixpoint each_changes (selected : option Contact.t) (cs : list Contact.t) : Prop :=
  match cs with
  | [] => True
  | c :: rest => selected ≠ Some c ∧ each_changes (Some c) rest
  end.

(** The channel [subscribeToMessages] opens for a contact. *)
Definition channel_for (me : string) (c : Contact.t) : Channel :=
  {| topic := "private-chat-" +:+ me +:+ "-" +:+ Contact.id c;
     filter_sender_id := Contact.id c;
     closure_currentUserId := me |}.

(** The member names a plain object inherits from [Object.prototype]:
    [obj[name]] reads the inherited member, a function or an object and so
    truthy, when [obj] has no own property of that name. *)
Definition Object_prototype_names : list string :=
  ["constructor"; "hasOwnProperty"; "isPrototypeOf"; "propertyIsEnumerable";
   "toLocaleString"; "toString"; "valueOf"; "__proto__";
   "__defineGetter__"; "__defineSetter__";
   "__lookupGetter__"; "__lookupSetter__"].

(** No topic is joined twice: the channels joined so far and those the
    clicks on [cs] open carry pairwise different topics. *)
Definition fresh_topics (w : World) (cs : list Contact.t) : Prop :=
  NoDup (topic <$> (channels w ++ (channel_for (currentUserId (ui w)) <$> cs))).

(* ===================================================================== *)
(** * Properties *)
(* ===================================================================== *)

#[global] Instance created_at_le_total : Total created_at_le.
Proof. intros m1 m2. unfold created_at_le. lia. Qed.

#[global] Instance created_at_le_trans : Transitive created_at_le.
Proof. intros m1 m2 m3. unfold created_at_le. lia. Qed.

(* --------------------------------------------------------------------- *)
(** ** Enrollment Viewer *)
(* --------------------------------------------------------------------- *)

Lemma toggle_flag (classId : string) (s : MyClasses.State) :
  MyClasses.flag (MyClasses.toggleNotifications classId s) classId
  = negb (MyClasses.flag s classId).
Proof.
  unfold MyClasses.flag, MyClasses.toggleNotifications. simpl.
  by rewrite lookup_insert_eq.
Qed.

Lemma toggle_effects (classId : string) (s : MyClasses.State) :
  MyClasses.effects (MyClasses.toggleNotifications classId s)
  = MyClasses.effects s ++
    [if MyClasses.flag (MyClasses.toggleNotifications classId s) classId
     then toast_enabled else toast_disabled].
Proof.
  unfold MyClasses.flag, MyClasses.toggleNotifications. simpl.
  rewrite lookup_insert_eq. simpl. by destruct (negb _).
Qed.

(** C10. Toggling the notification flag of a class twice gives the flag its
    original value back (the stored map itself when the class has a flag,
    as every enrolled class does after load), leaves every other class
    alone, sends nothing to the backend, and shows one confirmation per
    toggle worded after the new value, so the second confirmation is the
    other wording than the first. *)
Theorem toggleNotifications_twice (classId : string) (s : MyClasses.State) :
  let s1 := MyClasses.toggleNotifications classId s in
  let s2 := MyClasses.toggleNotifications classId s1 in
  MyClasses.flag s1 classId = negb (MyClasses.flag s classId) ∧
  MyClasses.flag s2 classId = MyClasses.flag s classId ∧
  (is_Some (MyClasses.notifications s !! classId) →
   MyClasses.notifications s2 = MyClasses.notifications s) ∧
  (∀ other, other ≠ classId →
     MyClasses.notifications s2 !! other = MyClasses.notifications s !! other) ∧
  (∃ first second,
     MyClasses.effects s1 = MyClasses.effects s ++ [first] ∧
     MyClasses.effects s2 = MyClasses.effects s ++ [first; second] ∧
     first = (if MyClasses.flag s1 classId then toast_enabled else toast_disabled) ∧
     second = (if MyClasses.flag s2 classId then toast_enabled else toast_disabled) ∧
     first ≠ second ∧
     is_call first = false ∧ is_call second = false).
Proof.
  intros s1 s2.
  assert (H1 : MyClasses.flag s1 classId = negb (MyClasses.flag s classId))
    by apply toggle_flag.
  assert (H2 : MyClasses.flag s2 classId = MyClasses.flag s classId).
  { unfold s2. rewrite toggle_flag, H1. apply negb_involutive. }
  split; [exact H1|]. split; [exact H2|]. split; [|split].
  - intros [b Hb]. apply map_eq. intros k.
    unfold s2, s1, MyClasses.toggleNotifications. simpl.
    rewrite lookup_insert_eq, insert_insert_eq. simpl.
    destruct (decide (classId = k)) as [<-|Hne].
    + rewrite lookup_insert_eq, Hb. simpl. by rewrite negb_involutive.
    + by rewrite lookup_insert_ne.
  - intros other Hne.
    unfold s2, s1, MyClasses.toggleNotifications. simpl.
    by rewrite !lookup_insert_ne.
  - assert (E1 := toggle_effects classId s).
    assert (E2 := toggle_effects classId s1).
    fold s1 in E1. fold s2 in E2. rewrite E1, <- app_assoc in E2.
    eexists _, _. split; [exact E1|]. split; [exact E2|].
    split; [reflexivity|]. split; [reflexivity|].
    rewrite H2, H1.
    destruct (MyClasses.flag s classId); simpl; repeat split; discriminate.
Qed.

Lemma toggleNotifications_twice_witness :
  let s := classes_screen [("k1", true); ("k2", false)] in
  let s2 := MyClasses.toggleNotifications "k1" (MyClasses.toggleNotifications "k1" s) in
  MyClasses.notifications s2 = MyClasses.notifications s ∧
  MyClasses.effects s2 = [toast_disabled; toast_enabled].
Proof.
  intros s s2.
  destruct (toggleNotifications_twice "k1" s) as (_ & _ & Hmap & _ & Heff).
  split.
  - apply Hmap. exists true. reflexivity.
  - destruct Heff as (first & second & _ & E2 & -> & -> & _).
    exact E2.
Defined.

(* --------------------------------------------------------------------- *)
(** ** The client: one request, by fate *)
(* --------------------------------------------------------------------- *)

Lemma request_honest (r : Request) (w : World) :
  next_fate w = Honest →
  request r w =
    (Returns {| data := (serve r (sent r Honest w)).1; error := None |},
     (serve r (sent r Honest w)).2).
Proof.
  intros Hf. unfold request, mbind, M_bind, perform, dispatch. rewrite Hf.
  by destruct (serve r (sent r Honest w)).
Qed.

Lemma request_null (r : Request) (w : World) :
  next_fate w = NullData →
  request r w =
    (Returns {| data := None; error := None |}, (serve r (sent r NullData w)).2).
Proof.
  intros Hf. unfold request, mbind, M_bind, perform, dispatch. rewrite Hf.
  by destruct (serve r (sent r NullData w)).
Qed.

Lemma request_error (r : Request) (w : World) (e : Error) :
  next_fate w = ErrorResult e →
  request r w =
    (Returns {| data := None; error := Some e |}, sent r (ErrorResult e) w).
Proof.
  intros Hf. unfold request, mbind, M_bind, perform, dispatch. by rewrite Hf.
Qed.

Lemma request_rejects (r : Request) (w : World) (e : Error) :
  next_fate w = Rejects e →
  request r w = (Throws e, sent r (Rejects e) w).
Proof.
  intros Hf. unfold request, mbind, M_bind, perform, dispatch. by rewrite Hf.
Qed.

Lemma honest_server_next (w : World) : honest_server w → next_fate w = Honest.
Proof.
  unfold honest_server, next_fate. destruct (plan w); [done|].
  by inversion 1.
Qed.

Lemma honest_server_sent (r : Request) (f : Fate) (w : World) :
  honest_server w → honest_server (sent r f w).
Proof.
  unfold honest_server, sent. simpl. destruct (plan w); [done|].
  simpl. by inversion 1.
Qed.

(* --------------------------------------------------------------------- *)
(** ** Chat Session: history *)
(* --------------------------------------------------------------------- *)

(** The filter of the history query says that the two parties of the
    message are the two parties of the conversation. *)
Lemma between_parties (a b : string) (m : Message.t) :
  between a b m ↔
  ({[Message.sender_id m; Message.recipient_id m]} : gset string) = {[a; b]}.
Proof.
  unfold between. split.
  - intros [[-> ->]|[-> ->]]; [reflexivity|].
    apply set_eq. intros x. set_unfold. tauto.
  - intros H. set_unfold in H.
    pose proof (proj1 (H (Message.sender_id m)) (or_introl eq_refl)) as Hs.
    pose proof (proj1 (H (Message.recipient_id m)) (or_intror eq_refl)) as Hr.
    pose proof (proj2 (H a) (or_introl eq_refl)) as Ha.
    pose proof (proj2 (H b) (or_intror eq_refl)) as Hb.
    clear H.
    destruct Hs as [Hs|Hs], Hr as [Hr|Hr], Ha as [Ha|Ha], Hb as [Hb|Hb];
      first [left; split; congruence | right; split; congruence].
Qed.

(** The conversation the server returns for the selection of [w]. *)
Lemma fetchMessages_honest (w : World) (contact : Contact.t) :
  selectedContact (ui w) = Some contact →
  honest_server w →
  let me := currentUserId (ui w) in
  let them := Contact.id contact in
  let loaded :=
    merge_sort created_at_le (filter (between me them) (private_messages (db w))) in
  let w1 := with_ui (set_messages loaded) (sent (SelectConversation me them) Honest w) in
  fetchMessages w =
    (Returns tt,
     match loaded with
     | [] => w1
     | _ :: _ => (serve (MarkRead me them) (sent (MarkRead me them) Honest w1)).2
     end).
Proof.
  intros Hsel Hh me them loaded w1.
  unfold fetchMessages, mbind, M_bind, get. rewrite Hsel.
  rewrite request_honest by (by apply honest_server_next).
  simpl. fold me them loaded.
  destruct loaded as [|m l'] eqn:El; [reflexivity|].
  simpl. fold w1.
  rewrite request_honest; [reflexivity|].
  apply honest_server_next. unfold w1.
  by apply (honest_server_sent (SelectConversation me them) Honest w).
Qed.

Lemma loaded_elem_of (a b : string) (ms : list Message.t) (m : Message.t) :
  m ∈ merge_sort created_at_le (filter (between a b) ms)
  ↔ m ∈ ms ∧ between a b m.
Proof.
  rewrite merge_sort_Permutation, list_elem_of_filter. tauto.
Qed.

(** C3. With a contact selected and the server answering, the history load
    leaves in [messages] exactly the stored messages whose two parties are
    the current identity and the contact, in either direction, each as
    often as it is stored, in ascending order of [created_at]. *)
Theorem fetchMessages_loads_conversation (w : World) (contact : Contact.t) :
  selectedContact (ui w) = Some contact →
  honest_server w →
  let me := currentUserId (ui w) in
  let them := Contact.id contact in
  let loaded := messages (ui (fetchMessages w).2) in
  (fetchMessages w).1 = Returns tt ∧
  (∀ m, m ∈ loaded ↔ m ∈ private_messages (db w) ∧ parties_are me them m) ∧
  loaded ≡ₚ filter (parties_are me them) (private_messages (db w)) ∧
  StronglySorted created_at_le loaded.
Proof.
  intros Hsel Hh me them loaded.
  pose proof (fetchMessages_honest w contact Hsel Hh) as E. simpl in E.
  fold me them in E.
  assert (Hl : loaded = merge_sort created_at_le
                 (filter (between me them) (private_messages (db w)))).
  { unfold loaded. rewrite E. simpl.
    destruct (merge_sort _ _) eqn:El; simpl; congruence. }
  split; [by rewrite E|].
  rewrite Hl. split; [|split].
  - intros m. rewrite loaded_elem_of. unfold parties_are.
    by rewrite between_parties.
  - rewrite merge_sort_Permutation.
    erewrite list_filter_iff; [reflexivity|].
    intros m. apply between_parties.
  - apply StronglySorted_merge_sort; apply _.
Qed.

Lemma fetchMessages_loads_conversation_witness :
  messages (ui (fetchMessages (Sample.chatting [] [])).2)
  = [Sample.msg "m2" "stu" "ana" true 10%N;
     Sample.msg "m4" "ana" "stu" false 20%N;
     Sample.msg "m1" "ana" "stu" true 30%N]
  ∧ StronglySorted created_at_le
      (messages (ui (fetchMessages (Sample.chatting [] [])).2)).
Proof.
  split; [reflexivity|].
  apply (fetchMessages_loads_conversation (Sample.chatting [] []) Sample.c_ana).
  - reflexivity.
  - vm_compute. constructor.
Defined.

(** The history load when the query and the update after it are served. *)
Lemma fetchMessages_served (w : World) (contact : Contact.t) :
  selectedContact (ui w) = Some contact →
  next_fate w = Honest →
  next_fate (with_plan (tail (plan w)) w) = Honest →
  let me := currentUserId (ui w) in
  let them := Contact.id contact in
  let loaded :=
    merge_sort created_at_le (filter (between me them) (private_messages (db w))) in
  let w1 := with_ui (set_messages loaded) (sent (SelectConversation me them) Honest w) in
  fetchMessages w =
    (Returns tt,
     match loaded with
     | [] => w1
     | _ :: _ => (serve (MarkRead me them) (sent (MarkRead me them) Honest w1)).2
     end).
Proof.
  intros Hsel Hf1 Hf2 me them loaded w1.
  unfold fetchMessages, mbind, M_bind, get. rewrite Hsel.
  rewrite request_honest by exact Hf1.
  simpl. fold me them loaded.
  destruct loaded as [|m l'] eqn:El; [reflexivity|].
  simpl. fold w1.
  rewrite request_honest; [reflexivity|exact Hf2].
Qed.

(** C8. After a history load whose query and update the server serves,
    every stored message that is in the loaded result, addressed to the
    current identity and unread is stored with [read = true] and with its
    identity, parties, content and time as before; every other stored
    message is stored exactly as it was, in particular any message from
    another sender, any addressed to someone else, and any the current
    identity sent to a contact other than itself.  A follow-up read of the
    conversation finds every message addressed to the current identity read.
    The update is sent exactly when the loaded result is not empty; no row
    is added or removed and the other tables are untouched. *)
Theorem fetchMessages_marks_read (w : World) (contact : Contact.t) :
  selectedContact (ui w) = Some contact →
  next_fate w = Honest →
  next_fate (with_plan (tail (plan w)) w) = Honest →
  let me := currentUserId (ui w) in
  let them := Contact.id contact in
  let after := (fetchMessages w).2 in
  let loaded := messages (ui after) in
  let to_mark m :=
    m ∈ loaded ∧ Message.recipient_id m = me ∧ Message.read m = false in
  (fetchMessages w).1 = Returns tt ∧
  (∀ i m, private_messages (db w) !! i = Some m → to_mark m →
     ∃ m', private_messages (db after) !! i = Some m' ∧
           Message.read m' = true ∧
           Message.id m' = Message.id m ∧
           Message.sender_id m' = Message.sender_id m ∧
           Message.recipient_id m' = Message.recipient_id m ∧
           Message.content m' = Message.content m ∧
           Message.created_at m' = Message.created_at m) ∧
  (∀ i m, private_messages (db w) !! i = Some m → ¬ to_mark m →
     private_messages (db after) !! i = Some m) ∧
  (∀ i m, private_messages (db w) !! i = Some m →
     Message.sender_id m ≠ them ∨ Message.recipient_id m ≠ me ∨
     (Message.sender_id m = me ∧ them ≠ me) →
     private_messages (db after) !! i = Some m) ∧
  (∀ m, m ∈ merge_sort created_at_le
              (filter (between me them) (private_messages (db after))) →
        Message.recipient_id m = me → Message.read m = true) ∧
  log after = log w ++
    Called (SelectConversation me them) Honest ::
    (if loaded is [] then [] else [Called (MarkRead me them) Honest]) ∧
  length (private_messages (db after)) = length (private_messages (db w)) ∧
  enrollments (db after) = enrollments (db w) ∧
  classes (db after) = classes (db w) ∧
  professionals (db after) = professionals (db w) ∧
  students (db after) = students (db w).
Proof.
  intros Hsel Hf1 Hf2 me them after loaded to_mark.
  pose proof (fetchMessages_served w contact Hsel Hf1 Hf2) as E. simpl in E.
  fold me them in E.
  assert (Hl : loaded = merge_sort created_at_le
                 (filter (between me them) (private_messages (db w)))).
  { unfold loaded, after. rewrite E. simpl.
    destruct (merge_sort _ _) eqn:El; simpl; congruence. }
  assert (Hmark : ∀ m, m ∈ private_messages (db w) →
            (to_mark m ↔ unread_from me them m)).
  { intros m Hin. unfold to_mark, unread_from. rewrite Hl, loaded_elem_of.
    unfold between. intuition congruence. }
  assert (Hrow : ∀ i m, private_messages (db w) !! i = Some m →
            private_messages (db after) !! i
            = Some (if decide (unread_from me them m)
                    then Message.mark_read m else m)).
  { intros i m Hi. unfold after. rewrite E.
    destruct (merge_sort _ _) as [|m0 l0] eqn:El; simpl.
    - rewrite Hi. f_equal. destruct (decide _) as [Hu|]; [|done].
      exfalso. apply (Hmark m) in Hu; [|by apply list_elem_of_lookup_2 in Hi].
      destruct Hu as [Hin _].
      rewrite Hl in Hin. by apply elem_of_nil in Hin.
    - rewrite list_lookup_fmap, Hi. reflexivity. }
  assert (Hlen : length (private_messages (db after))
                 = length (private_messages (db w))).
  { unfold after. rewrite E.
    destruct (merge_sort _ _) as [|m0 l0]; simpl; [done|].
    by rewrite length_fmap. }
  split; [by rewrite E|].
  split; [|split; [|split; [|split; [|split; [|split; [exact Hlen|]]]]]].
  - intros i m Hi Hm. rewrite (Hrow i m Hi).
    apply (Hmark m) in Hm; [|by apply list_elem_of_lookup_2 in Hi].
    rewrite decide_True by done.
    exists (Message.mark_read m). by repeat split.
  - intros i m Hi Hm. rewrite (Hrow i m Hi).
    rewrite decide_False; [done|].
    rewrite <- (Hmark m); [done|by apply list_elem_of_lookup_2 in Hi].
  - intros i m Hi Hs. rewrite (Hrow i m Hi).
    rewrite decide_False; [done|]. unfold unread_from.
    intros (Hr & Hs' & _). destruct Hs as [Hs|[Hs|[Hs Hne]]]; congruence.
  - intros m Hm Hr. apply loaded_elem_of in Hm as [Hin Hb].
    apply list_elem_of_lookup in Hin as [i Hi].
    assert (Hi0 : is_Some (private_messages (db w) !! i)).
    { apply lookup_lt_is_Some. rewrite <- Hlen. by apply lookup_lt_Some in Hi. }
    destruct Hi0 as [m0 Hi0]. rewrite (Hrow i m0 Hi0) in Hi.
    destruct (decide (unread_from me them m0)) as [Hu|Hu]; injection Hi as <-.
    + reflexivity.
    + destruct (Message.read m0) eqn:Hread; [done|]. exfalso. apply Hu.
      unfold unread_from, between in *. intuition congruence.
  - unfold loaded, after. rewrite E.
    destruct (merge_sort _ _) as [|m0 l0]; simpl; by rewrite <- ?app_assoc.
  - unfold after. rewrite E.
    by destruct (merge_sort _ _) as [|m0 l0].
Qed.

Lemma fetchMessages_marks_read_witness :
  let after := (fetchMessages (Sample.chatting [] [])).2 in
  (∃ m', private_messages (db after) !! 0%nat = Some m' ∧
         Message.id m' = "m1" ∧ Message.read m' = true) ∧
  private_messages (db after) !! 1%nat
  = Some (Sample.msg "m2" "stu" "ana" true 10%N) ∧
  private_messages (db after) !! 2%nat
  = Some (Sample.msg "m3" "bob" "stu" true 5%N) ∧
  private_messages (db after) !! 3%nat
  = Some (Sample.msg "m4" "ana" "stu" false 20%N).
Proof.
  intros after.
  destruct (fetchMessages_marks_read (Sample.chatting [] []) Sample.c_ana)
    as (_ & Hmarked & Hkept & Hother & _).
  - reflexivity.
  - reflexivity.
  - reflexivity.
  - split; [|split; [|split]].
    + destruct (Hmarked 0%nat (Sample.msg "m1" "ana" "stu" true 30%N))
        as (m' & Hm' & Hread & Hid & _); [reflexivity| |].
      * split; [|split; reflexivity].
        apply list_elem_of_lookup. exists 2%nat. reflexivity.
      * exists m'. split; [exact Hm'|]. split; [exact Hid|exact Hread].
    + apply Hother; [reflexivity|]. left. discriminate.
    + apply Hother; [reflexivity|]. left. discriminate.
    + apply Hkept; [reflexivity|]. intros (_ & _ & Hread). discriminate Hread.
Defined.

(** C9. When the history query of a selected contact comes back with an
    error, the load leaves the whole component state, so the message list on
    display, as it was, shows no toast, sends no mark-read request and
    changes nothing in the database: the only traces are the query itself
    and a console line. *)
Theorem fetchMessages_error_is_silent (w : World) (contact : Contact.t) (e : Error) :
  selectedContact (ui w) = Some contact →
  next_fate w = ErrorResult e →
  let q := SelectConversation (currentUserId (ui w)) (Contact.id contact) in
  let new := [Called q (ErrorResult e); ConsoleError "Error fetching messages:" e] in
  ∃ w', fetchMessages w = (Returns tt, w') ∧
        messages (ui w') = messages (ui w) ∧
        ui w' = ui w ∧
        db w' = db w ∧
        log w' = log w ++ new ∧
        Forall (λ ev, is_toast ev = false ∧ is_mark_read ev = false) new.
Proof.
  intros Hsel Hf q new.
  unfold fetchMessages, mbind, M_bind, get. rewrite Hsel.
  rewrite (request_error _ _ e Hf). simpl.
  eexists. split; [reflexivity|]. simpl.
  repeat split; [by rewrite <- app_assoc|].
  repeat constructor.
Qed.

Lemma fetchMessages_error_is_silent_witness :
  let shown := [Sample.msg "m3" "bob" "stu" false 5%N] in
  let w := with_ui (set_messages shown)
             (Sample.chatting [] [ErrorResult Sample.boom]) in
  (fetchMessages w).1 = Returns tt ∧
  messages (ui (fetchMessages w).2) = shown ∧
  log (fetchMessages w).2
  = [Called (SelectConversation "stu" "ana") (ErrorResult Sample.boom);
     ConsoleError "Error fetching messages:" Sample.boom].
Proof.
  intros shown w.
  destruct (fetchMessages_error_is_silent w Sample.c_ana Sample.boom)
    as (w' & E & Hmsgs & _ & _ & Hlog & _).
  - reflexivity.
  - reflexivity.
  - rewrite E. simpl. split; [reflexivity|]. split; [exact Hmsgs|exact Hlog].
Defined.

(* --------------------------------------------------------------------- *)
(** ** Chat Session: sending *)
(* --------------------------------------------------------------------- *)

Lemma begin_blocked (w : World) :
  send_blocked (ui w) → handleSendMessage_begin w = (Returns None, w).
Proof.
  intros Hb. unfold handleSendMessage_begin, mbind, M_bind, get.
  destruct Hb as [Ht|[Hs|Hs]].
  - by rewrite Ht.
  - rewrite Hs. simpl. by rewrite orb_true_r.
  - rewrite Hs. by rewrite orb_true_r.
Qed.

Lemma perform_returns (r : Request) (w : World) :
  ∃ p, perform r w = (Returns p, (perform r w).2).
Proof.
  unfold perform, dispatch.
  destruct (next_fate w); try destruct (serve r _); eexists; reflexivity.
Qed.

Lemma perform_frame (r : Request) (w : World) :
  ui (perform r w).2 = ui w ∧
  channels (perform r w).2 = channels w ∧
  log (perform r w).2 = log w ++ [Called r (next_fate w)].
Proof.
  unfold perform, dispatch.
  destruct (next_fate w); try reflexivity; destruct r; done.
Qed.

Lemma begin_ready (w : World) (contact : Contact.t) :
  selectedContact (ui w) = Some contact →
  trim (newMessage (ui w)) ≠ [] →
  sending (ui w) = false →
  let ins := InsertMessage (currentUserId (ui w)) (Contact.id contact)
               (trim (newMessage (ui w))) in
  let w1 := (perform ins (with_ui (set_sending true) w)).2 in
  ∃ p, perform ins (with_ui (set_sending true) w) = (Returns p, w1) ∧
       handleSendMessage_begin w =
         (Returns (Some {| closure_me := currentUserId (ui w);
                           closure_contact := contact;
                           closure_newMessage := newMessage (ui w);
                           insert_promise := p |}), w1).
Proof.
  intros Hsel Ht Hs ins w1.
  destruct (perform_returns ins (with_ui (set_sending true) w)) as [p Hp].
  exists p. split; [exact Hp|].
  assert (Htr : truthy_string (trim (newMessage (ui w))) = true)
    by (by destruct (trim (newMessage (ui w)))).
  unfold handleSendMessage_begin, mbind, M_bind, get.
  rewrite Hsel, Hs, Htr. simpl. unfold setSending, update. fold ins.
  by rewrite Hp.
Qed.

Lemma not_blocked (s : Screen) :
  ¬ send_blocked s →
  ∃ contact, selectedContact s = Some contact ∧
             trim (newMessage s) ≠ [] ∧ sending s = false.
Proof.
  unfold send_blocked. intros Hn.
  destruct (selectedContact s) as [c|]; [|tauto].
  exists c. split; [done|]. split; [tauto|].
  destruct (sending s); tauto.
Qed.

(** What the continuation of a send does once the insert has settled. *)
Lemma resume_fulfilled (f : SendInFlight) (w : World) (r : Response unit) :
  insert_promise f = Fulfilled r → error r = None →
  handleSendMessage_resume f w =
    (Returns tt,
     with_ui (λ s, set_sending false
                     (set_newMessage []
                        (set_messages
                           (messages s ++
                            [{| Message.id := uuid_source w (uuid_next w);
                                Message.sender_id := closure_me f;
                                Message.recipient_id := Contact.id (closure_contact f);
                                Message.content := trim (closure_newMessage f);
                                Message.read := false;
                                Message.created_at := clock w |}]) s)))
       (with_uuid_next (S (uuid_next w)) w)).
Proof.
  intros Hp He.
  unfold handleSendMessage_resume, finally, try_catch, mbind, M_bind.
  rewrite Hp. simpl. rewrite He. reflexivity.
Qed.

Lemma resume_failed (f : SendInFlight) (w : World) (e : Error) :
  (insert_promise f = Rejected e ∨
   ∃ r, insert_promise f = Fulfilled r ∧ error r = Some e) →
  handleSendMessage_resume f w =
    (Returns tt,
     with_ui (set_sending false)
       (with_log (λ l, l ++ [Toast "Erro ao enviar mensagem" (message e)
                               (Some "destructive")]) w)).
Proof.
  intros [Hp|(r & Hp & He)];
    unfold handleSendMessage_resume, finally, try_catch, mbind, M_bind;
    rewrite Hp; simpl; [|rewrite He]; reflexivity.
Qed.

Lemma resume_frame (f : SendInFlight) (w : World) :
  (handleSendMessage_resume f w).1 = Returns tt ∧
  db (handleSendMessage_resume f w).2 = db w ∧
  sending (ui (handleSendMessage_resume f w).2) = false ∧
  List.filter is_call (log (handleSendMessage_resume f w).2)
  = List.filter is_call (log w).
Proof.
  destruct (insert_promise f) as [r|e] eqn:Hp.
  - destruct (error r) as [e|] eqn:He.
    + rewrite (resume_failed f w e) by eauto. simpl.
      rewrite List.filter_app. simpl. by rewrite app_nil_r.
    + by rewrite (resume_fulfilled f w r).
  - rewrite (resume_failed f w e) by eauto. simpl.
    rewrite List.filter_app. simpl. by rewrite app_nil_r.
Qed.

Lemma perform_insert_db (a b : string) (text : jsstring) (w : World) :
  db (perform (InsertMessage a b text) w).2 =
    if is_failure (next_fate w) then db w
    else with_private_messages
           (private_messages (db w) ++
            [{| Message.id := uuid_source w (uuid_next w);
                Message.sender_id := a; Message.recipient_id := b;
                Message.content := text; Message.read := false;
                Message.created_at := clock w |}]) (db w).
Proof. unfold perform, dispatch. by destruct (next_fate w). Qed.

Lemma two_rapid_sends_eq (w : World) (contact : Contact.t) :
  selectedContact (ui w) = Some contact →
  trim (newMessage (ui w)) ≠ [] →
  sending (ui w) = false →
  ∃ f w1, handleSendMessage_begin w = (Returns (Some f), w1) ∧
          handleSendMessage_begin w1 = (Returns None, w1) ∧
          two_rapid_sends w = handleSendMessage_resume f w1 ∧
          handleSendMessage w = handleSendMessage_resume f w1 ∧
          w1 = (perform (InsertMessage (currentUserId (ui w)) (Contact.id contact)
                           (trim (newMessage (ui w))))
                        (with_ui (set_sending true) w)).2 ∧
          closure_me f = currentUserId (ui w) ∧
          closure_contact f = contact ∧
          closure_newMessage f = newMessage (ui w) ∧
          perform (InsertMessage (currentUserId (ui w)) (Contact.id contact)
                     (trim (newMessage (ui w))))
                  (with_ui (set_sending true) w) = (Returns (insert_promise f), w1).
Proof.
  intros Hsel Ht Hs.
  destruct (begin_ready w contact Hsel Ht Hs) as (p & Hp & Hb).
  cbv zeta in Hb, Hp.
  match type of Hb with _ = (_, ?x) => set (w1 := x) in * end.
  assert (Hb1 : handleSendMessage_begin w1 = (Returns None, w1)).
  { apply begin_blocked. right. right. unfold w1.
    by rewrite (proj1 (perform_frame _ _)). }
  eexists _, w1. split; [exact Hb|]. split; [exact Hb1|].
  split; [|split].
  - unfold two_rapid_sends, mbind, M_bind. rewrite Hb. cbv beta iota.
    rewrite Hb1. cbv beta iota.
    destruct (resume_frame
      {| closure_me := currentUserId (ui w); closure_contact := contact;
         closure_newMessage := newMessage (ui w); insert_promise := p |} w1)
      as (Hr & _).
    destruct (handleSendMessage_resume _ w1) as [c w2]. simpl in Hr.
    by rewrite Hr.
  - unfold handleSendMessage, mbind, M_bind. by rewrite Hb.
  - simpl. by rewrite Hp.
Qed.

(** C5. A submission whose text trims to nothing, or made with no contact
    selected, or made while a previous send has not settled, changes nothing
    at all: no request leaves the client and the message list stays as it
    is.  Otherwise exactly one insert leaves the client, a second submission
    before it settles is such a no-op, and once both have run their course
    one insert has been sent and, when the server serves it, exactly one row
    has been stored. *)
Theorem handleSendMessage_guard (w : World) :
  (send_blocked (ui w) →
   handleSendMessage_begin w = (Returns None, w) ∧
   handleSendMessage w = (Returns tt, w)) ∧
  (¬ send_blocked (ui w) →
   ∃ contact f w1,
     selectedContact (ui w) = Some contact ∧
     handleSendMessage_begin w = (Returns (Some f), w1) ∧
     handleSendMessage_begin w1 = (Returns None, w1) ∧
     let ins := Called (InsertMessage (currentUserId (ui w)) (Contact.id contact)
                          (trim (newMessage (ui w)))) (next_fate w) in
     let after := (two_rapid_sends w).2 in
     log w1 = log w ++ [ins] ∧
     List.filter is_call (log after) = List.filter is_call (log w) ++ [ins] ∧
     (is_failure (next_fate w) = false →
      ∃ row, private_messages (db after) = private_messages (db w) ++ [row] ∧
             Message.sender_id row = currentUserId (ui w) ∧
             Message.recipient_id row = Contact.id contact ∧
             Message.content row = trim (newMessage (ui w)) ∧
             Message.read row = false)).
Proof.
  split.
  - intros Hb. pose proof (begin_blocked w Hb) as E. split; [exact E|].
    unfold handleSendMessage, mbind, M_bind. by rewrite E.
  - intros Hn. destruct (not_blocked _ Hn) as (contact & Hsel & Ht & Hs).
    destruct (two_rapid_sends_eq w contact Hsel Ht Hs)
      as (f & w1 & Hb & Hb1 & Htwo & _ & Hw1 & _).
    exists contact, f, w1. split; [exact Hsel|]. split; [exact Hb|].
    split; [exact Hb1|]. simpl.
    assert (Hlog : log w1 = log w ++ [Called (InsertMessage (currentUserId (ui w))
                     (Contact.id contact) (trim (newMessage (ui w)))) (next_fate w)]).
    { rewrite Hw1. by rewrite (proj2 (proj2 (perform_frame _ _))). }
    split; [exact Hlog|].
    rewrite Htwo. destruct (resume_frame f w1) as (_ & Hdb & _ & Hcalls).
    split.
    + rewrite Hcalls, Hlog, List.filter_app. reflexivity.
    + intros Hok. rewrite Hdb, Hw1, perform_insert_db.
      change (next_fate (with_ui (set_sending true) w)) with (next_fate w).
      rewrite Hok. simpl. eexists. split; [reflexivity|]. by simpl.
Qed.

Lemma handleSendMessage_guard_witness :
  handleSendMessage (Sample.chatting (js "  ") [])
  = (Returns tt, Sample.chatting (js "  ") []) ∧
  ∃ row,
    private_messages (db (two_rapid_sends (Sample.chatting (js " oi ") [])).2)
    = private_messages Sample.database ++ [row] ∧
    Message.content row = js "oi".
Proof.
  split.
  - apply (handleSendMessage_guard (Sample.chatting (js "  ") [])).
    left. reflexivity.
  - destruct (handleSendMessage_guard (Sample.chatting (js " oi ") [])) as [_ H].
    destruct H as (contact & f & w1 & Hsel & _ & _ & _ & _ & Hrow).
    + intros [H|[H|H]]; discriminate H.
    + destruct (Hrow eq_refl) as (row & Hdb & _ & _ & Hc & _).
      exists row. split; [exact Hdb|exact Hc].
Defined.

(** C6. A submission with non-blank text to a selected contact, with no
    send in flight, completes normally and ends with [sending] false.  If
    the insert is served, the message list gains exactly one entry at its
    end, built locally: an identity drawn from the generator at a position
    not used before, the current identity as sender, the contact as
    recipient, the trimmed text, unread, the current time; the input is
    emptied and no toast is shown.  If the insert fails, by error result or
    by rejection, one destructive toast carries the error's message, and the
    input text, the message list and the database are as before. *)
Theorem handleSendMessage_outcome (w : World) (contact : Contact.t) :
  selectedContact (ui w) = Some contact →
  trim (newMessage (ui w)) ≠ [] →
  sending (ui w) = false →
  let me := currentUserId (ui w) in
  let text := trim (newMessage (ui w)) in
  let call := Called (InsertMessage me (Contact.id contact) text) (next_fate w) in
  let after := (handleSendMessage w).2 in
  (handleSendMessage w).1 = Returns tt ∧
  sending (ui after) = false ∧
  (is_failure (next_fate w) = false →
   ∃ n,
     (uuid_next w ≤ n)%nat ∧ uuid_next after = S n ∧
     messages (ui after) =
       messages (ui w) ++
       [{| Message.id := uuid_source w n;
           Message.sender_id := me;
           Message.recipient_id := Contact.id contact;
           Message.content := text;
           Message.read := false;
           Message.created_at := clock w |}] ∧
     newMessage (ui after) = [] ∧
     log after = log w ++ [call]) ∧
  (∀ e, next_fate w = ErrorResult e ∨ next_fate w = Rejects e →
     log after = log w ++
       [call; Toast "Erro ao enviar mensagem" (message e) (Some "destructive")] ∧
     newMessage (ui after) = newMessage (ui w) ∧
     messages (ui after) = messages (ui w) ∧
     db after = db w).
Proof.
  intros Hsel Ht Hs me text call after.
  destruct (two_rapid_sends_eq w contact Hsel Ht Hs)
    as (f & w1 & _ & _ & _ & Hsend & Hw1 & Hme & Hc & Htext & Hp).
  fold me text in Hw1, Hp.
  set (ins := InsertMessage me (Contact.id contact) text) in *.
  destruct (resume_frame f w1) as (Hret & _ & Hsending & _).
  unfold after. rewrite Hsend.
  split; [exact Hret|]. split; [exact Hsending|].
  destruct (perform_frame ins (with_ui (set_sending true) w))
    as (Hui & _ & Hlog).
  rewrite <- Hw1 in Hui, Hlog. simpl in Hui, Hlog.
  change (next_fate (with_ui (set_sending true) w)) with (next_fate w) in Hlog.
  unfold perform, dispatch in Hp.
  change (next_fate (with_ui (set_sending true) w)) with (next_fate w) in Hp.
  split.
  - intros Hok. destruct (next_fate w) eqn:Hf; try discriminate Hok.
    + simpl in Hp. injection Hp as Hp Hw1'.
      rewrite (resume_fulfilled f w1 _ (eq_sym Hp) eq_refl). simpl.
      rewrite Hui, Hme, Hc, Htext, Hlog. rewrite <- Hw1'. simpl.
      exists (S (uuid_next w)). repeat split; lia.
    + simpl in Hp. injection Hp as Hp Hw1'.
      rewrite (resume_fulfilled f w1 _ (eq_sym Hp) eq_refl). simpl.
      rewrite Hui, Hme, Hc, Htext, Hlog. rewrite <- Hw1'. simpl.
      exists (S (uuid_next w)). repeat split; lia.
  - intros e [Hf|Hf]; rewrite Hf in Hp, Hlog; simpl in Hp;
      injection Hp as Hp Hw1'.
    + rewrite (resume_failed f w1 e) by (right; eauto). simpl.
      rewrite Hui, Hlog, <- app_assoc. rewrite <- Hw1'.
      unfold call. rewrite Hf. by simpl.
    + rewrite (resume_failed f w1 e) by (left; eauto). simpl.
      rewrite Hui, Hlog, <- app_assoc. rewrite <- Hw1'.
      unfold call. rewrite Hf. by simpl.
Qed.

Lemma handleSendMessage_outcome_witness :
  messages (ui (handleSendMessage (Sample.chatting (js " oi ") [])).2)
  = [{| Message.id := "uuid-b"; Message.sender_id := "stu";
        Message.recipient_id := "ana"; Message.content := js "oi";
        Message.read := false; Message.created_at := 1000%N |}] ∧
  log (handleSendMessage (Sample.chatting (js " oi ") [Rejects Sample.boom])).2
  = [Called (InsertMessage "stu" "ana" (js "oi")) (Rejects Sample.boom);
     Toast "Erro ao enviar mensagem" "boom" (Some "destructive")].
Proof.
  split.
  - destruct (handleSendMessage_outcome (Sample.chatting (js " oi ") []) Sample.c_ana)
      as (_ & _ & Hok & _).
    + reflexivity.
    + discriminate.
    + reflexivity.
    + reflexivity.
  - destruct (handleSendMessage_outcome
                (Sample.chatting (js " oi ") [Rejects Sample.boom]) Sample.c_ana)
      as (_ & _ & _ & Hfail).
    + reflexivity.
    + discriminate.
    + reflexivity.
    + destruct (Hfail Sample.boom) as (Hlog & _); [by right|exact Hlog].
Defined.

(* --------------------------------------------------------------------- *)
(** ** Chat Session: the realtime channel *)
(* --------------------------------------------------------------------- *)

Lemma subscribeToMessages_selected (w : World) (contact : Contact.t) :
  selectedContact (ui w) = Some contact →
  let ch := {| topic := "private-chat-" +:+ currentUserId (ui w) +:+ "-"
                          +:+ Contact.id contact;
               filter_sender_id := Contact.id contact;
               closure_currentUserId := currentUserId (ui w) |} in
  subscribeToMessages w =
    (Returns (Some (RemoveChannel ch)), with_channels (λ l, l ++ [ch]) w).
Proof.
  intros Hsel. unfold subscribeToMessages, mbind, M_bind, get.
  by rewrite Hsel.
Qed.

Lemma deliver_eq (ch : Channel) (row : Message.t) (w : World) :
  deliver ch row w =
    (Returns tt,
     if decide (Message.sender_id row = filter_sender_id ch ∧
                Message.recipient_id row = closure_currentUserId ch)
     then with_ui (λ s, set_messages (messages s ++ [row]) s) w
     else w).
Proof.
  unfold deliver, on_insert.
  destruct (decide (Message.sender_id row = filter_sender_id ch)) as [Hs|Hs];
    [rewrite bool_decide_eq_true_2 by done
    |rewrite bool_decide_eq_false_2 by done].
  - destruct (decide (Message.recipient_id row = closure_currentUserId ch))
      as [Hr|Hr];
      [rewrite bool_decide_eq_true_2 by done
      |rewrite bool_decide_eq_false_2 by done].
    + by rewrite decide_True.
    + by rewrite decide_False by tauto.
  - by rewrite decide_False by tauto.
Qed.

Lemma broadcast_own_row (chs : list Channel) (row : Message.t) (w : World) :
  Forall (λ ch, filter_sender_id ch ≠ Message.sender_id row) chs →
  broadcast chs row w = (Returns tt, w).
Proof.
  induction 1 as [|ch chs Hch _ IH]; [reflexivity|].
  simpl. unfold mbind, M_bind. rewrite deliver_eq.
  rewrite decide_False; [exact IH|]. intros [Hs _]. by apply Hch.
Qed.

(** C7 as worded fails: when the selected contact is the current identity
    itself, a row the user sends to themself passes the channel's filter
    and is appended. *)
Lemma self_sent_row_is_appended : ¬ own_rows_never_appended.
Proof.
  intros claim.
  assert (H := claim SelfChat.world
                 (with_channels (λ l, l ++ [SelfChat.channel]) SelfChat.world)
                 SelfChat.world SelfChat.channel SelfChat.row
                 (ex_intro _ SelfChat.c_uli eq_refl) eq_refl eq_refl).
  vm_compute in H. discriminate H.
Qed.

(** C7, amended. On the channel [subscribeToMessages] opens, a delivered
    row is appended at the end of the message list exactly when its sender
    is the contact the channel was opened for and its recipient is the
    current identity, and otherwise changes nothing.  When that contact is
    not the current identity itself, no row sent by the current identity is
    appended by the channel, so the insert behind an optimistic echo adds
    no second entry. *)
Theorem channel_appends_iff (w : World) (contact : Contact.t) :
  selectedContact (ui w) = Some contact →
  let me := currentUserId (ui w) in
  ∃ ch,
    subscribeToMessages w =
      (Returns (Some (RemoveChannel ch)), with_channels (λ l, l ++ [ch]) w) ∧
    (∀ w2 row,
       Message.sender_id row = Contact.id contact ∧ Message.recipient_id row = me →
       deliver ch row w2 =
         (Returns tt, with_ui (λ s, set_messages (messages s ++ [row]) s) w2)) ∧
    (∀ w2 row,
       ¬ (Message.sender_id row = Contact.id contact ∧ Message.recipient_id row = me) →
       deliver ch row w2 = (Returns tt, w2)) ∧
    (Contact.id contact ≠ me →
     ∀ w2 row,
       Message.sender_id row = me →
       deliver ch row w2 = (Returns tt, w2) ∧
       (channels w2 = [ch] → realtime_insert row w2 = (Returns tt, w2))).
Proof.
  intros Hsel me.
  eexists. split; [apply (subscribeToMessages_selected w contact Hsel)|].
  split; [|split].
  - intros w2 row H. rewrite deliver_eq. by rewrite decide_True.
  - intros w2 row H. rewrite deliver_eq. by rewrite decide_False.
  - intros Hne w2 row Hs. split.
    + rewrite deliver_eq. rewrite decide_False; [done|].
      simpl. intros [Hs' _]. congruence.
    + intros Hch. unfold realtime_insert, mbind, M_bind, get. rewrite Hch.
      apply broadcast_own_row. constructor; [|constructor].
      simpl. congruence.
Qed.

Lemma channel_appends_iff_witness :
  let w := Sample.chatting [] [] in
  let ch := {| topic := "private-chat-stu-ana"; filter_sender_id := "ana";
               closure_currentUserId := "stu" |} in
  messages (ui (deliver ch (Sample.msg "m9" "ana" "stu" true 99%N) w).2)
  = [Sample.msg "m9" "ana" "stu" true 99%N] ∧
  deliver ch (Sample.msg "m9" "stu" "ana" true 99%N) w = (Returns tt, w).
Proof.
  intros w ch.
  destruct (channel_appends_iff w Sample.c_ana eq_refl)
    as (ch' & Hsub & Hyes & _ & Hown).
  assert (ch' = ch) as ->.
  { rewrite (subscribeToMessages_selected w Sample.c_ana eq_refl) in Hsub.
    injection Hsub as Hch _. rewrite <- Hch. reflexivity. }
  split.
  - rewrite Hyes; [reflexivity|]. split; reflexivity.
  - apply Hown; [discriminate|reflexivity].
Defined.

(* --------------------------------------------------------------------- *)
(** ** Chat Session: lifetime of the subscription *)
(* --------------------------------------------------------------------- *)

Lemma request_frame (r : Request) (w : World) :
  ui (request r w).2 = ui w ∧
  channels (request r w).2 = channels w ∧
  effect_cleanup (request r w).2 = effect_cleanup w.
Proof.
  unfold request, mbind, M_bind, perform, dispatch.
  destruct (next_fate w); try done; destruct r; done.
Qed.

Lemma fetchMessages_frame (w : World) :
  let w' := (detached fetchMessages w).2 in
  (detached fetchMessages w).1 = Returns tt ∧
  selectedContact (ui w') = selectedContact (ui w) ∧
  currentUserId (ui w') = currentUserId (ui w) ∧
  channels w' = channels w ∧
  effect_cleanup w' = effect_cleanup w.
Proof.
  unfold detached, fetchMessages, mbind, M_bind, get.
  destruct (selectedContact (ui w)) as [contact|] eqn:Hsel; [|done].
  destruct (request_frame
              (SelectConversation (currentUserId (ui w)) (Contact.id contact)) w)
    as (Hui & Hch & Hcl).
  destruct (request _ w) as [[r|e] w1]; simpl in *;
    [|by rewrite Hui, Hch, Hcl, Hsel].
  destruct (error r); simpl; [by rewrite Hui, Hch, Hcl, Hsel|].
  destruct (data r) as [[|m l]|]; simpl;
    try (by rewrite Hui, Hch, Hcl, Hsel).
  destruct (request_frame
              (MarkRead (currentUserId (ui w)) (Contact.id contact))
              (with_ui (set_messages (m :: l)) w1))
    as (Hui2 & Hch2 & Hcl2).
  destruct (request _ (with_ui _ w1)) as [[r2|e2] w2]; simpl in *;
    rewrite Hui2, Hch2, Hcl2; simpl; by rewrite Hui, Hch, Hcl, Hsel.
Qed.

(** The effect never hands React a cleanup. *)
Lemma selectedContact_effect_no_cleanup (w : World) :
  (selectedContact_effect w).1 = Returns None.
Proof.
  unfold selectedContact_effect, mbind, M_bind, get.
  destruct (selectedContact (ui w)) as [contact|] eqn:Hsel; [|done].
  destruct (fetchMessages_frame w) as (Hret & Hsel' & _).
  destruct (detached fetchMessages w) as [c w1]. simpl in *. subst c.
  rewrite Hsel in Hsel'.
  by rewrite (subscribeToMessages_selected w1 contact Hsel').
Qed.

(** So every change of selection adds a channel and removes none. *)
Lemma select_contact_accumulates (w : World) (contact : Contact.t) :
  selectedContact (ui w) ≠ Some contact →
  effect_cleanup w = None →
  let w' := (select_contact contact w).2 in
  (select_contact contact w).1 = Returns tt ∧
  selectedContact (ui w') = Some contact ∧
  effect_cleanup w' = None ∧
  channels w' =
    channels w ++
    [{| topic := "private-chat-" +:+ currentUserId (ui w) +:+ "-"
                   +:+ Contact.id contact;
        filter_sender_id := Contact.id contact;
        closure_currentUserId := currentUserId (ui w) |}].
Proof.
  intros Hne Hcl.
  unfold select_contact, mbind, M_bind, get.
  rewrite decide_False by exact Hne. rewrite Hcl. simpl.
  set (w0 := with_ui (set_selectedContact (Some contact)) w).
  unfold selectedContact_effect, mbind, M_bind, get.
  change (selectedContact (ui w0)) with (Some contact).
  destruct (fetchMessages_frame w0) as (Hret & Hsel & Hme & Hch & _).
  destruct (detached fetchMessages w0) as [c w1]. simpl in *. subst c.
  rewrite (subscribeToMessages_selected w1 contact Hsel). simpl.
  by rewrite Hsel, Hme, Hch.
Qed.

(** C1, on the code.  Stu opens the conversation with Ana and then the one
    with Bob.  Both channels are then joined and React holds no cleanup; a
    message Ana sends afterwards is appended to the list shown under Bob;
    and leaving the screen closes neither channel. *)
Theorem stale_channel_survives :
  let w := (Switching.switch Switching.start).2 in
  selectedContact (ui w) = Some Sample.c_bob ∧
  channels w = [Switching.ch_ana; Switching.ch_bob] ∧
  effect_cleanup w = None ∧
  messages (ui (realtime_insert Switching.late w).2)
  = messages (ui w) ++ [Switching.late] ∧
  channels (unmount w).2 = [Switching.ch_ana; Switching.ch_bob].
Proof. vm_compute. repeat split. Qed.

(* --------------------------------------------------------------------- *)
(** ** Contact Resolver *)
(* --------------------------------------------------------------------- *)

Lemma elem_of_set_spread (seen xs : list string) (x : string) :
  x ∈ set_spread seen xs ↔ x ∈ xs ∧ x ∉ seen.
Proof.
  revert seen. induction xs as [|y xs IH]; intros seen; simpl.
  - rewrite elem_of_nil. tauto.
  - case_bool_decide as Hy.
    + rewrite IH, elem_of_cons. split; [tauto|].
      intros [[->|Hx] Hn]; [contradiction|tauto].
    + rewrite !elem_of_cons, IH, elem_of_cons.
      destruct (decide (x = y)) as [->|Hne]; tauto.
Qed.

Lemma NoDup_set_spread (seen xs : list string) : NoDup (set_spread seen xs).
Proof.
  revert seen. induction xs as [|y xs IH]; intros seen; simpl.
  - constructor.
  - case_bool_decide as Hy; [apply IH|].
    constructor; [|apply IH].
    rewrite elem_of_set_spread, elem_of_cons. tauto.
Qed.

Lemma elem_of_dedupe (xs : list string) (x : string) : x ∈ dedupe xs ↔ x ∈ xs.
Proof.
  unfold dedupe. rewrite elem_of_set_spread, elem_of_nil. tauto.
Qed.

(** The run of the student branch against an honest server. *)
Lemma fetchStudentContacts_honest (userId : string) (w : World) :
  honest_server w →
  let class_ids :=
    Enrollment.class_id <$>
      filter (active_enrollment_of userId) (enrollments (db w)) in
  let owners :=
    dedupe (Class.professional_id <$>
              filter (λ c, Class.id c ∈ class_ids) (classes (db w))) in
  let w1 := sent (SelectActiveClassIds userId) Honest w in
  let w2 := sent (SelectProfessionalIds class_ids) Honest w1 in
  let w3 := sent (SelectProfessionals owners) Honest w2 in
  fetchStudentContacts userId w =
    (Returns tt,
     match class_ids, owners with
     | [], _ => with_ui (set_contacts []) w1
     | _ :: _, [] => with_ui (set_contacts []) w2
     | _ :: _, _ :: _ =>
         with_ui (set_contacts
                    (contact_of professional <$>
                       filter (λ p, Profile.user_id p ∈ owners)
                              (professionals (db w)))) w3
     end).
Proof.
  intros Hh. cbv zeta.
  remember (Enrollment.class_id <$>
              filter (active_enrollment_of userId) (enrollments (db w)))
    as class_ids eqn:Ek.
  remember (dedupe (Class.professional_id <$>
                      filter (λ c, Class.id c ∈ class_ids) (classes (db w))))
    as owners eqn:Eo.
  unfold fetchStudentContacts, try_catch, mbind, M_bind.
  rewrite request_honest by (by apply honest_server_next).
  simpl. rewrite <- Ek.
  destruct class_ids as [|k ks]; [reflexivity|].
  rewrite request_honest
    by (apply honest_server_next; by apply honest_server_sent).
  simpl. rewrite <- Eo.
  destruct owners as [|o os]; [reflexivity|].
  rewrite request_honest
    by (apply honest_server_next; by do 2 apply honest_server_sent).
  reflexivity.
Qed.

Lemma elem_of_active_class_ids (d : Database) (sid k : string) :
  k ∈ Enrollment.class_id <$> filter (active_enrollment_of sid) (enrollments d)
  ↔ ∃ e, e ∈ enrollments d ∧ Enrollment.student_id e = sid ∧
         Enrollment.status e = "active" ∧ Enrollment.class_id e = k.
Proof.
  rewrite list_elem_of_fmap. unfold active_enrollment_of. split.
  - intros (e & -> & He). apply list_elem_of_filter in He as [[Hs Ha] He].
    exists e. eauto.
  - intros (e & He & Hs & Ha & <-). exists e. split; [done|].
    apply list_elem_of_filter. tauto.
Qed.

Lemma elem_of_owners (d : Database) (sid o : string) :
  o ∈ dedupe (Class.professional_id <$>
                filter (λ c, Class.id c ∈
                               Enrollment.class_id <$>
                                 filter (active_enrollment_of sid) (enrollments d))
                       (classes d))
  ↔ owner_of_active_class d sid o.
Proof.
  rewrite elem_of_dedupe, list_elem_of_fmap. unfold owner_of_active_class. split.
  - intros (c & -> & Hc). apply list_elem_of_filter in Hc as [Hk Hc].
    apply elem_of_active_class_ids in Hk as (e & He & Hs & Ha & Hk).
    exists e, c. naive_solver.
  - intros (e & c & He & Hs & Ha & Hc & Hk & <-). exists c. split; [done|].
    apply list_elem_of_filter. split; [|done].
    apply elem_of_active_class_ids. exists e. naive_solver.
Qed.

Lemma list_nil_iff_no_elem {A} (l : list A) : l = [] ↔ ∀ x, x ∉ l.
Proof.
  split.
  - intros -> x. apply not_elem_of_nil.
  - destruct l as [|a l]; [done|]. intros H. destruct (H a). left.
Qed.

(** C2. Against an honest server the student branch completes normally
    and leaves in [contacts] exactly the profiles, tagged "professional", of
    the owners of the classes the student's active enrollments refer to.
    Without an active enrollment the list is empty and only the enrollment
    query was sent; with active enrollments but no owner it is empty and
    the profile query was not sent; otherwise the profile query carries the
    owners without repetition.  The database is only read. *)
Theorem fetchStudentContacts_resolves (userId : string) (w : World) :
  honest_server w →
  let after := (fetchStudentContacts userId w).2 in
  let q1 := Called (SelectActiveClassIds userId) Honest in
  (fetchStudentContacts userId w).1 = Returns tt ∧
  (∀ k, k ∈ contacts (ui after) ↔ professional_contact (db w) userId k) ∧
  (¬ has_active_enrollment (db w) userId →
   contacts (ui after) = [] ∧ log after = log w ++ [q1]) ∧
  (has_active_enrollment (db w) userId →
   (∀ o, ¬ owner_of_active_class (db w) userId o) →
   contacts (ui after) = [] ∧
   ∃ class_ids,
     log after = log w ++ [q1; Called (SelectProfessionalIds class_ids) Honest]) ∧
  (∀ o, owner_of_active_class (db w) userId o →
   ∃ class_ids owners,
     log after = log w ++ [q1; Called (SelectProfessionalIds class_ids) Honest;
                           Called (SelectProfessionals owners) Honest] ∧
     NoDup owners ∧
     ∀ o', o' ∈ owners ↔ owner_of_active_class (db w) userId o') ∧
  db after = db w.
Proof.
  intros Hh after q1.
  pose proof (fetchStudentContacts_honest userId w Hh) as E. cbv zeta in E.
  pose proof (elem_of_active_class_ids (db w) userId) as Hcls.
  pose proof (elem_of_owners (db w) userId) as Hown.
  set (class_ids := Enrollment.class_id <$> _) in *.
  set (owners := dedupe _) in *.
  assert (Hnoenr : class_ids = [] ↔ ¬ has_active_enrollment (db w) userId).
  { rewrite list_nil_iff_no_elem. unfold has_active_enrollment. split.
    - intros Hn (e & He & Hs & Ha). apply (Hn (Enrollment.class_id e)).
      apply Hcls. eauto.
    - intros Hn k Hk. apply Hcls in Hk as (e & He & Hs & Ha & _). eauto. }
  assert (Hnoown : owners = [] ↔ ∀ o, ¬ owner_of_active_class (db w) userId o).
  { rewrite list_nil_iff_no_elem. split; intros Hn o Ho; apply (Hn o), Hown, Ho. }
  assert (Howner_enr : ∀ o, owner_of_active_class (db w) userId o →
                            has_active_enrollment (db w) userId).
  { intros o (e & c & He & Hs & Ha & _). exists e. eauto. }
  unfold after. rewrite E. simpl. split; [done|].
  destruct class_ids as [|k ks] eqn:Ek.
  { assert (Hno : ¬ has_active_enrollment (db w) userId) by (by apply Hnoenr).
    simpl. split; [|split; [|split; [|split]]]; try done.
    - intros c. rewrite elem_of_nil. split; [done|].
      intros (p & _ & Ho & _). eauto.
    - intros o Ho. exfalso. eauto. }
  assert (Hyes : has_active_enrollment (db w) userId).
  { destruct (proj1 (Hcls k)) as (e & He & Hs & Ha & _); [left|].
    exists e. eauto. }
  destruct owners as [|o os] eqn:Eo.
  { assert (Hno : ∀ o, ¬ owner_of_active_class (db w) userId o)
      by (by apply Hnoown).
    simpl. split; [|split; [|split; [|split]]]; try done.
    - intros c. rewrite elem_of_nil. split; [done|].
      intros (p & _ & Ho & _). by apply Hno in Ho.
    - intros _ _. split; [done|]. exists (k :: ks). by rewrite <- !app_assoc.
    - intros o Ho. by apply Hno in Ho. }
  simpl. split; [|split; [|split; [|split]]]; try done.
  - intros c. rewrite list_elem_of_fmap. unfold professional_contact. split.
    + intros (p & -> & Hp). apply list_elem_of_filter in Hp as [Hp Hin].
      exists p. split; [done|]. split; [|done]. by apply Hown.
    + intros (p & Hin & Ho & ->). exists p. split; [done|].
      apply list_elem_of_filter. split; [|done]. by apply Hown.
  - intros _ Hn. exfalso. apply (Hn o), Hown. left.
  - intros o' _. exists (k :: ks), (o :: os).
    split; [by rewrite <- !app_assoc|]. split; [|exact Hown].
    rewrite <- Eo. apply NoDup_set_spread.
Qed.

Lemma fetchStudentContacts_resolves_witness :
  let w := Sample.world (Sample.screen [] None []) [] in
  contacts (ui (fetchStudentContacts "stu" w).2) = [Sample.c_ana] ∧
  ∀ k, k ∈ contacts (ui (fetchStudentContacts "stu" w).2)
       ↔ professional_contact Sample.database "stu" k.
Proof.
  intros w. split; [reflexivity|].
  apply (fetchStudentContacts_resolves "stu" w).
  vm_compute. constructor.
Defined.

(** One request of a run: split on its fate and reduce. *)
Ltac request_step :=
  match goal with
  | |- context [request ?r ?w] =>
      let Hf := fresh "Hf" in
      destruct (next_fate w) eqn:Hf;
      [ rewrite (request_honest r w Hf)
      | rewrite (request_null r w Hf)
      | rewrite (request_error r w _ Hf)
      | rewrite (request_rejects r w _ Hf) ];
      clear Hf; simpl
  end.

Ltac rows_step :=
  match goal with
  | |- context [match ?l with [] => _ | _ :: _ => _ end] =>
      destruct l; simpl
  end.

Ltac no_failed_call H :=
  repeat (apply Exists_cons in H; destruct H as [H|H]; [discriminate H|]);
  by apply Exists_nil in H.

Ltac degraded :=
  split; [reflexivity|];
  eexists; split; [rewrite <- ?app_assoc; reflexivity|];
  split; [repeat constructor|];
  simpl; first [ intros _; split; [reflexivity|eexists; reflexivity]
               | let H := fresh in intros H; exfalso; no_failed_call H ].

(** C4. Whatever the fate of each request, both branches of the Contact
    Resolver complete normally and show no toast; and whenever a request of
    the run fails, by error result or by rejection, the contact list is left
    empty and the failure is only written to the console. *)
Theorem resolver_failure_degrades (userId : string) (w : World) :
  degrades_silently (fetchStudentContacts userId) w ∧
  degrades_silently (fetchProfessionalContacts userId) w.
Proof.
  split.
  - unfold degrades_silently, fetchStudentContacts, try_catch, mbind, M_bind.
    repeat first [degraded | request_step | rows_step].
  - unfold degrades_silently, fetchProfessionalContacts, try_catch, mbind, M_bind.
    repeat first [degraded | request_step | rows_step].
Qed.

Lemma resolver_failure_degrades_witness :
  let w := Sample.world (Sample.screen [Sample.c_ana] None [])
             [Honest; Rejects Sample.boom] in
  (fetchStudentContacts "stu" w).1 = Returns tt ∧
  contacts (ui (fetchStudentContacts "stu" w).2) = [].
Proof.
  intros w.
  destruct (resolver_failure_degrades "stu" w)
    as [(Hret & new & Hlog & _ & Hfail) _].
  split; [exact Hret|].
  apply Hfail.
  vm_compute in Hlog. subst new.
  apply Exists_cons_tl, Exists_cons_hd. reflexivity.
Defined.

(* --------------------------------------------------------------------- *)
(** ** The self-contact case, end to end *)
(* --------------------------------------------------------------------- *)

(** The resolver lists a user who teaches a class they are enrolled in as
    their own contact. *)
Example self_contact_is_resolved :
  contacts (ui (fetchStudentContacts "uli"
                  (with_ui (set_contacts []) SelfChat.world)).2)
  = [SelfChat.c_uli].
Proof. reflexivity. Qed.

(** In that conversation one send shows twice: the local echo and the row
    the channel delivers. *)
Example self_chat_shows_the_message_twice :
  let subscribed := with_channels (λ l, l ++ [SelfChat.channel]) SelfChat.world in
  let sent_once := (handleSendMessage subscribed).2 in
  ∃ stored echo,
    private_messages (db sent_once) = [stored] ∧
    messages (ui sent_once) = [echo] ∧
    messages (ui (realtime_insert stored sent_once).2) = [echo; stored].
Proof. eexists _, _. repeat split. Qed.

(* ===================================================================== *)
(** * Further properties of the two screens *)
(* ===================================================================== *)

(* --------------------------------------------------------------------- *)
(** ** Contact Resolver: what a run leaves alone *)
(* --------------------------------------------------------------------- *)

Ltac framed :=
  simpl; rewrite ?List.filter_app; simpl; rewrite ?app_nil_r;
  repeat split; reflexivity.

Lemma fetchStudentContacts_frame (userId : string) (w : World) :
  let w' := (fetchStudentContacts userId w).2 in
  (fetchStudentContacts userId w).1 = Returns tt ∧
  ui w' = set_contacts (contacts (ui w')) (ui w) ∧
  db w' = db w ∧
  channels w' = channels w ∧
  List.filter is_toast (log w') = List.filter is_toast (log w).
Proof.
  unfold fetchStudentContacts, try_catch, mbind, M_bind.
  repeat first [framed | request_step | rows_step].
Qed.

Lemma fetchProfessionalContacts_frame (userId : string) (w : World) :
  let w' := (fetchProfessionalContacts userId w).2 in
  (fetchProfessionalContacts userId w).1 = Returns tt ∧
  ui w' = set_contacts (contacts (ui w')) (ui w) ∧
  db w' = db w ∧
  channels w' = channels w ∧
  List.filter is_toast (log w') = List.filter is_toast (log w).
Proof.
  unfold fetchProfessionalContacts, try_catch, mbind, M_bind.
  repeat first [framed | request_step | rows_step].
Qed.

Ltac tagged :=
  simpl; intros k Hk;
  first [ by apply elem_of_nil in Hk
        | apply list_elem_of_fmap in Hk as (p & -> & _); reflexivity ].

(** X2. Whatever the requests come to, the student branch lists only
    contacts tagged "professional" and the professional branch only contacts
    tagged "student"; neither touches the database, the channels or any
    component state but [contacts]. *)
Theorem resolver_tags (userId : string) (w : World) :
  let ws := (fetchStudentContacts userId w).2 in
  let wp := (fetchProfessionalContacts userId w).2 in
  (∀ k, k ∈ contacts (ui ws) → Contact.type k = professional) ∧
  (∀ k, k ∈ contacts (ui wp) → Contact.type k = student) ∧
  ui ws = set_contacts (contacts (ui ws)) (ui w) ∧
  ui wp = set_contacts (contacts (ui wp)) (ui w) ∧
  db ws = db w ∧ db wp = db w ∧
  channels ws = channels w ∧ channels wp = channels w.
Proof.
  intros ws wp.
  destruct (fetchStudentContacts_frame userId w) as (_ & Hs1 & Hs2 & Hs3 & _).
  destruct (fetchProfessionalContacts_frame userId w) as (_ & Hp1 & Hp2 & Hp3 & _).
  split; [|split; [|done]].
  - unfold ws, fetchStudentContacts, try_catch, mbind, M_bind.
    repeat first [tagged | request_step | rows_step].
  - unfold wp, fetchProfessionalContacts, try_catch, mbind, M_bind.
    repeat first [tagged | request_step | rows_step].
Qed.

(* --------------------------------------------------------------------- *)
(** ** Contact Resolver: the professional branch *)
(* --------------------------------------------------------------------- *)

Lemma fetchProfessionalContacts_honest (professionalUserId : string) (w : World) :
  honest_server w →
  let class_ids :=
    Class.id <$>
      filter (λ c, Class.professional_id c = professionalUserId) (classes (db w)) in
  let student_ids :=
    dedupe (Enrollment.student_id <$>
              filter (active_enrollment_in class_ids) (enrollments (db w))) in
  let w1 := sent (SelectClassIds professionalUserId) Honest w in
  let w2 := sent (SelectActiveStudentIds class_ids) Honest w1 in
  let w3 := sent (SelectStudents student_ids) Honest w2 in
  fetchProfessionalContacts professionalUserId w =
    (Returns tt,
     match class_ids, student_ids with
     | [], _ => with_ui (set_contacts []) w1
     | _ :: _, [] => with_ui (set_contacts []) w2
     | _ :: _, _ :: _ =>
         with_ui (set_contacts
                    (contact_of student <$>
                       filter (λ p, Profile.user_id p ∈ student_ids)
                              (students (db w)))) w3
     end).
Proof.
  intros Hh. cbv zeta.
  remember (Class.id <$>
              filter (λ c, Class.professional_id c = professionalUserId)
                     (classes (db w)))
    as class_ids eqn:Ek.
  remember (dedupe (Enrollment.student_id <$>
                      filter (active_enrollment_in class_ids) (enrollments (db w))))
    as student_ids eqn:Eo.
  unfold fetchProfessionalContacts, try_catch, mbind, M_bind.
  rewrite request_honest by (by apply honest_server_next).
  simpl. rewrite <- Ek.
  destruct class_ids as [|k ks]; [reflexivity|].
  rewrite request_honest
    by (apply honest_server_next; by apply honest_server_sent).
  simpl. rewrite <- Eo.
  destruct student_ids as [|o os]; [reflexivity|].
  rewrite request_honest
    by (apply honest_server_next; by do 2 apply honest_server_sent).
  reflexivity.
Qed.

Lemma elem_of_owned_class_ids (d : Database) (pid k : string) :
  k ∈ Class.id <$> filter (λ c, Class.professional_id c = pid) (classes d)
  ↔ ∃ c, c ∈ classes d ∧ Class.professional_id c = pid ∧ Class.id c = k.
Proof.
  rewrite list_elem_of_fmap. split.
  - intros (c & -> & Hc). apply list_elem_of_filter in Hc as [Hp Hc]. eauto.
  - intros (c & Hc & Hp & <-). exists c. split; [done|].
    by apply list_elem_of_filter.
Qed.

Lemma elem_of_student_ids (d : Database) (pid sid : string) :
  sid ∈ dedupe (Enrollment.student_id <$>
                  filter (active_enrollment_in
                            (Class.id <$>
                               filter (λ c, Class.professional_id c = pid) (classes d)))
                         (enrollments d))
  ↔ student_of_professional d pid sid.
Proof.
  rewrite elem_of_dedupe, list_elem_of_fmap.
  unfold student_of_professional, active_enrollment_in. split.
  - intros (e & -> & He). apply list_elem_of_filter in He as [[Hk Ha] He].
    apply elem_of_owned_class_ids in Hk as (c & Hc & Hp & Hk).
    exists c, e. eauto 10.
  - intros (c & e & Hc & Hp & He & Hk & Ha & <-). exists e. split; [done|].
    apply list_elem_of_filter. split; [|done]. split; [|done].
    apply elem_of_owned_class_ids. eauto.
Qed.

(** X1. Against an honest server the professional branch completes
    normally and leaves in [contacts] exactly the profiles, tagged
    "student", of the students with an active enrollment in a class the
    professional owns.  A professional who owns no class gets the empty
    list after the first query alone; the database is only read. *)
Theorem fetchProfessionalContacts_resolves (professionalUserId : string) (w : World) :
  honest_server w →
  let after := (fetchProfessionalContacts professionalUserId w).2 in
  (fetchProfessionalContacts professionalUserId w).1 = Returns tt ∧
  (∀ k, k ∈ contacts (ui after) ↔ student_contact (db w) professionalUserId k) ∧
  (¬ owns_a_class (db w) professionalUserId →
   contacts (ui after) = [] ∧
   log after = log w ++ [Called (SelectClassIds professionalUserId) Honest]) ∧
  db after = db w.
Proof.
  intros Hh after.
  pose proof (fetchProfessionalContacts_honest professionalUserId w Hh) as E.
  cbv zeta in E.
  pose proof (elem_of_owned_class_ids (db w) professionalUserId) as Hcls.
  pose proof (elem_of_student_ids (db w) professionalUserId) as Hstu.
  set (class_ids := Class.id <$> _) in *.
  set (student_ids := dedupe _) in *.
  assert (Hstu_cls : ∀ sid, student_of_professional (db w) professionalUserId sid →
                            owns_a_class (db w) professionalUserId).
  { intros sid (c & e & Hc & Hp & _). exists c. eauto. }
  unfold after. rewrite E. simpl. split; [done|].
  destruct class_ids as [|k ks] eqn:Ek.
  { assert (Hno : ¬ owns_a_class (db w) professionalUserId).
    { intros (c & Hc & Hp).
      apply (not_elem_of_nil (Class.id c)), Hcls. eauto. }
    simpl. split; [|split]; try done.
    intros c. rewrite elem_of_nil. split; [done|].
    intros (p & _ & Ho & _). eauto. }
  assert (Hyes : owns_a_class (db w) professionalUserId).
  { destruct (proj1 (Hcls k)) as (c & Hc & Hp & _); [left|]. exists c. eauto. }
  destruct student_ids as [|o os] eqn:Eo.
  { simpl. split; [|split]; try done.
    intros c. rewrite elem_of_nil. split; [done|].
    intros (p & _ & Ho & _). apply Hstu in Ho. by apply elem_of_nil in Ho. }
  simpl. split; [|split]; try done.
  intros c. rewrite list_elem_of_fmap. unfold student_contact. split.
  - intros (p & -> & Hp). apply list_elem_of_filter in Hp as [Hp Hin].
    exists p. split; [done|]. split; [|done]. by apply Hstu.
  - intros (p & Hin & Ho & ->). exists p. split; [done|].
    apply list_elem_of_filter. split; [|done]. by apply Hstu.
Qed.

Lemma fetchProfessionalContacts_resolves_witness :
  contacts (ui (fetchProfessionalContacts "ana" Teaching.start).2)
  = [Teaching.c_stu] ∧
  ∀ k, k ∈ contacts (ui (fetchProfessionalContacts "ana" Teaching.start).2)
       ↔ student_contact Sample.database "ana" k.
Proof.
  split; [reflexivity|].
  apply (fetchProfessionalContacts_resolves "ana" Teaching.start).
  vm_compute. constructor.
Defined.

(** X3. Against an honest server the contacts a branch produces depend on
    the database and the identity alone: not on the contacts listed before,
    nor on anything else on the screen.  In particular a second run over
    unchanged data lists the same contacts as the first. *)
Theorem resolver_reads_database_only (userId : string) (w w' : World) :
  honest_server w → honest_server w' → db w = db w' →
  contacts (ui (fetchStudentContacts userId w).2)
  = contacts (ui (fetchStudentContacts userId w').2) ∧
  contacts (ui (fetchProfessionalContacts userId w).2)
  = contacts (ui (fetchProfessionalContacts userId w').2) ∧
  contacts (ui (fetchStudentContacts userId (fetchStudentContacts userId w).2).2)
  = contacts (ui (fetchStudentContacts userId w).2) ∧
  contacts (ui (fetchProfessionalContacts userId
                  (fetchProfessionalContacts userId w).2).2)
  = contacts (ui (fetchProfessionalContacts userId w).2).
Proof.
  assert (Hs : ∀ v v', honest_server v → honest_server v' → db v = db v' →
            contacts (ui (fetchStudentContacts userId v).2)
            = contacts (ui (fetchStudentContacts userId v').2)).
  { intros v v' Hv Hv' Hdb.
    rewrite (fetchStudentContacts_honest userId v Hv),
            (fetchStudentContacts_honest userId v' Hv'). simpl.
    rewrite Hdb.
    destruct (Enrollment.class_id <$> _); [done|].
    by destruct (dedupe _). }
  assert (Hp : ∀ v v', honest_server v → honest_server v' → db v = db v' →
            contacts (ui (fetchProfessionalContacts userId v).2)
            = contacts (ui (fetchProfessionalContacts userId v').2)).
  { intros v v' Hv Hv' Hdb.
    rewrite (fetchProfessionalContacts_honest userId v Hv),
            (fetchProfessionalContacts_honest userId v' Hv'). simpl.
    rewrite Hdb.
    destruct (Class.id <$> _); [done|].
    by destruct (dedupe _). }
  assert (Hkeep_s : ∀ v, honest_server v →
            honest_server (fetchStudentContacts userId v).2).
  { intros v Hv. rewrite (fetchStudentContacts_honest userId v Hv). simpl.
    destruct (Enrollment.class_id <$> _); [|destruct (dedupe _)];
      repeat apply honest_server_sent; exact Hv. }
  assert (Hkeep_p : ∀ v, honest_server v →
            honest_server (fetchProfessionalContacts userId v).2).
  { intros v Hv. rewrite (fetchProfessionalContacts_honest userId v Hv). simpl.
    destruct (Class.id <$> _); [|destruct (dedupe _)];
      repeat apply honest_server_sent; exact Hv. }
  intros Hw Hw' Hdb.
  split; [by apply Hs|]. split; [by apply Hp|]. split.
  - apply Hs; [by apply Hkeep_s|done|].
    by destruct (fetchStudentContacts_frame userId w) as (_ & _ & -> & _).
  - apply Hp; [by apply Hkeep_p|done|].
    by destruct (fetchProfessionalContacts_frame userId w) as (_ & _ & -> & _).
Qed.

Lemma resolver_reads_database_only_witness :
  contacts (ui (fetchStudentContacts "stu" (Sample.chatting (js "oi") [])).2)
  = contacts (ui (fetchStudentContacts "stu" Teaching.start).2).
Proof.
  apply (resolver_reads_database_only "stu"
           (Sample.chatting (js "oi") []) Teaching.start).
  - vm_compute. constructor.
  - vm_compute. constructor.
  - reflexivity.
Defined.

(* --------------------------------------------------------------------- *)
(** ** Chat screen: initialisation *)
(* --------------------------------------------------------------------- *)

(** The run of [initializeChat] when a lookup fails before the resolver:
    the identity is recorded if the session lookup got that far, and the
    toast follows. *)
Lemma initializeChat_lookup_failure (l : Lookups) (w : World) (e : Error) :
  lookup_failure l = Some e →
  ∃ w0, (w0 = w ∨ ∃ user_id, w0 = with_ui (set_currentUserId user_id) w) ∧
        initializeChat l w =
          (Returns tt,
           with_ui (set_loading false)
             (with_log (λ lg, lg ++ [init_toast e]) w0)).
Proof.
  unfold lookup_failure, initializeChat, finally, try_catch, mbind, M_bind.
  destruct (getUser l) as [auth|e0]; simpl.
  - destruct (data auth) as [user_id|]; simpl.
    + destruct (studentData l) as [s|e1]; simpl.
      * destruct (professionalData l) as [p|e2]; simpl; [done|].
        intros [= <-]. eexists. split; [right; by eexists|done].
      * intros [= <-]. eexists. split; [right; by eexists|done].
    + intros [= <-]. exists w. split; [by left|done].
  - intros [= <-]. exists w. split; [by left|done].
Qed.

(** The run of [initializeChat] when the three lookups are answered. *)
Lemma initializeChat_lookups_answered (l : Lookups) (w : World)
    (auth s p : Response string) (user_id : string) :
  getUser l = Fulfilled auth → data auth = Some user_id →
  studentData l = Fulfilled s → professionalData l = Fulfilled p →
  let w0 := with_ui (set_currentUserId user_id) w in
  initializeChat l w =
    (Returns tt,
     with_ui (set_loading false)
       match data s, data p with
       | Some _, _ =>
           (fetchStudentContacts user_id
              (with_ui (set_userType (Some student)) w0)).2
       | None, Some professional_user_id =>
           (fetchProfessionalContacts professional_user_id
              (with_ui (set_userType (Some professional)) w0)).2
       | None, None => w0
       end).
Proof.
  intros Hg Ha Hs Hp.
  unfold initializeChat, finally, try_catch, mbind, M_bind.
  rewrite Hg. simpl. rewrite Ha. simpl. rewrite Hs, Hp. simpl.
  destruct (data s) as [x|]; simpl.
  - destruct (fetchStudentContacts_frame user_id
                (with_ui (set_userType (Some student))
                   (with_ui (set_currentUserId user_id) w))) as (Hr & _).
    destruct (fetchStudentContacts _ _) as [c w1]. simpl in *. by subst c.
  - destruct (data p) as [pid|]; simpl; [|done].
    destruct (fetchProfessionalContacts_frame pid
                (with_ui (set_userType (Some professional))
                   (with_ui (set_currentUserId user_id) w))) as (Hr & _).
    destruct (fetchProfessionalContacts _ _) as [c w1]. simpl in *. by subst c.
Qed.

Lemma lookup_failure_None (l : Lookups) :
  lookup_failure l = None →
  ∃ auth s p user_id,
    getUser l = Fulfilled auth ∧ data auth = Some user_id ∧
    studentData l = Fulfilled s ∧ professionalData l = Fulfilled p.
Proof.
  unfold lookup_failure.
  destruct (getUser l) as [auth|]; [|done].
  destruct (data auth) as [user_id|] eqn:Ha; [|done].
  destruct (studentData l) as [s|]; [|done].
  destruct (professionalData l) as [p|]; [|done].
  intros _. by exists auth, s, p, user_id.
Qed.

(** X4. [initializeChat] always completes normally and always ends the
    loading state, whatever its lookups and the resolver's requests come
    to. *)
Theorem initializeChat_finishes (l : Lookups) (w : World) :
  (initializeChat l w).1 = Returns tt ∧
  loading (ui (initializeChat l w).2) = false.
Proof.
  destruct (lookup_failure l) as [e|] eqn:Hl.
  - destruct (initializeChat_lookup_failure l w e Hl) as (w0 & _ & ->). done.
  - destruct (lookup_failure_None l Hl) as (auth & s & p & uid & Hg & Ha & Hs & Hp).
    by rewrite (initializeChat_lookups_answered l w auth s p uid Hg Ha Hs Hp).
Qed.

(** X5. The only toast [initializeChat] can show is its own, and it shows
    it exactly when the session lookup is rejected or has no user, or a role
    lookup is rejected: then no request of the resolver is sent and the
    contact list and the role stay as they were, even for a user who has a
    student profile.  A failure inside the resolver never shows a toast. *)
Theorem initializeChat_toast (l : Lookups) (w : World) :
  let after := (initializeChat l w).2 in
  List.filter is_toast (log after)
  = List.filter is_toast (log w) ++
    match lookup_failure l with
    | Some e => [init_toast e]
    | None => []
    end ∧
  (∀ e, lookup_failure l = Some e →
        log after = log w ++ [init_toast e] ∧
        contacts (ui after) = contacts (ui w) ∧
        userType (ui after) = userType (ui w) ∧
        db after = db w).
Proof.
  intros after. unfold after. destruct (lookup_failure l) as [e|] eqn:Hl.
  - destruct (initializeChat_lookup_failure l w e Hl) as (w0 & Hw0 & ->).
    simpl. rewrite List.filter_app. simpl.
    destruct Hw0 as [->|(uid & ->)]; simpl;
      (split; [done|]); intros e' [= <-]; done.
  - destruct (lookup_failure_None l Hl) as (auth & s & p & uid & Hg & Ha & Hs & Hp).
    rewrite (initializeChat_lookups_answered l w auth s p uid Hg Ha Hs Hp).
    simpl. rewrite app_nil_r. split; [|done].
    destruct (data s) as [x|]; [|destruct (data p) as [pid|]]; simpl.
    + by destruct (fetchStudentContacts_frame uid
                     (with_ui (set_userType (Some student))
                        (with_ui (set_currentUserId uid) w)))
        as (_ & _ & _ & _ & ->).
    + by destruct (fetchProfessionalContacts_frame pid
                     (with_ui (set_userType (Some professional))
                        (with_ui (set_currentUserId uid) w)))
        as (_ & _ & _ & _ & ->).
    + done.
Qed.

Lemma initializeChat_toast_witness :
  log (initializeChat SigningIn.stu_half SigningIn.start).2
  = [init_toast Sample.boom] ∧
  contacts (ui (initializeChat SigningIn.stu_half SigningIn.start).2) = [].
Proof.
  destruct (initializeChat_toast SigningIn.stu_half SigningIn.start) as [_ H].
  destruct (H Sample.boom eq_refl) as (Hlog & Hc & _).
  split; [exact Hlog|exact Hc].
Defined.

Lemma student_contacts_iff (userId : string) (w : World) :
  honest_server w →
  ∀ k, k ∈ contacts (ui (fetchStudentContacts userId w).2)
       ↔ professional_contact (db w) userId k.
Proof.
  intros Hh k.
  rewrite (fetchStudentContacts_honest userId w Hh). simpl.
  pose proof (elem_of_owners (db w) userId) as Hown.
  pose proof (elem_of_active_class_ids (db w) userId) as Hcls.
  set (class_ids := Enrollment.class_id <$> _) in *.
  set (owners := dedupe _) in *.
  assert (Hempty : ∀ o, owner_of_active_class (db w) userId o → class_ids ≠ []).
  { intros o (e & c & He & Hs & Ha & _) Hnil.
    apply (not_elem_of_nil (Enrollment.class_id e)). rewrite <- Hnil.
    apply Hcls. eauto. }
  unfold professional_contact.
  destruct class_ids as [|c cs] eqn:Ec; [|destruct owners as [|o os] eqn:Eo]; simpl.
  - rewrite elem_of_nil. split; [done|]. intros (p & _ & Ho & _).
    by apply Hempty in Ho.
  - rewrite elem_of_nil. split; [done|]. intros (p & _ & Ho & _).
    apply Hown in Ho. by apply elem_of_nil in Ho.
  - rewrite list_elem_of_fmap. split.
    + intros (p & -> & Hp). apply list_elem_of_filter in Hp as [Hp Hin].
      exists p. split; [done|]. split; [|done]. by apply Hown.
    + intros (p & Hin & Ho & ->). exists p. split; [done|].
      apply list_elem_of_filter. split; [|done]. by apply Hown.
Qed.

Lemma professional_contacts_iff (professionalUserId : string) (w : World) :
  honest_server w →
  ∀ k, k ∈ contacts (ui (fetchProfessionalContacts professionalUserId w).2)
       ↔ student_contact (db w) professionalUserId k.
Proof.
  intros Hh k.
  rewrite (fetchProfessionalContacts_honest professionalUserId w Hh). simpl.
  pose proof (elem_of_student_ids (db w) professionalUserId) as Hstu.
  pose proof (elem_of_owned_class_ids (db w) professionalUserId) as Hcls.
  set (class_ids := Class.id <$> _) in *.
  set (student_ids := dedupe _) in *.
  assert (Hempty : ∀ sid, student_of_professional (db w) professionalUserId sid →
                          class_ids ≠ []).
  { intros sid (c & e & Hc & Hp & _) Hnil.
    apply (not_elem_of_nil (Class.id c)). rewrite <- Hnil.
    apply Hcls. eauto. }
  unfold student_contact.
  destruct class_ids as [|c cs] eqn:Ec;
    [|destruct student_ids as [|o os] eqn:Eo]; simpl.
  - rewrite elem_of_nil. split; [done|]. intros (p & _ & Ho & _).
    by apply Hempty in Ho.
  - rewrite elem_of_nil. split; [done|]. intros (p & _ & Ho & _).
    apply Hstu in Ho. by apply elem_of_nil in Ho.
  - rewrite list_elem_of_fmap. split.
    + intros (p & -> & Hp). apply list_elem_of_filter in Hp as [Hp Hin].
      exists p. split; [done|]. split; [|done]. by apply Hstu.
    + intros (p & Hin & Ho & ->). exists p. split; [done|].
      apply list_elem_of_filter. split; [|done]. by apply Hstu.
Qed.

(** X6. With a session and both role lookups answered, against an honest
    server: the identity is recorded; a user with a student row is treated
    as a student, whether or not a professional row exists too, and gets
    the professionals of their active classes; a user with only a
    professional row gets the students of the classes owned by the row's
    [user_id]; a user with neither row keeps an untouched screen, with no
    request sent and nothing shown. *)
Theorem initializeChat_role (l : Lookups) (w : World)
    (auth s p : Response string) (user_id : string) :
  honest_server w →
  getUser l = Fulfilled auth → data auth = Some user_id →
  studentData l = Fulfilled s → professionalData l = Fulfilled p →
  let after := (initializeChat l w).2 in
  currentUserId (ui after) = user_id ∧
  match data s, data p with
  | Some _, _ =>
      userType (ui after) = Some student ∧
      ∀ k, k ∈ contacts (ui after) ↔ professional_contact (db w) user_id k
  | None, Some professional_user_id =>
      userType (ui after) = Some professional ∧
      ∀ k, k ∈ contacts (ui after)
           ↔ student_contact (db w) professional_user_id k
  | None, None =>
      userType (ui after) = userType (ui w) ∧
      contacts (ui after) = contacts (ui w) ∧
      log after = log w
  end.
Proof.
  intros Hh Hg Ha Hs Hp after. unfold after.
  rewrite (initializeChat_lookups_answered l w auth s p user_id Hg Ha Hs Hp).
  simpl.
  destruct (data s) as [x|]; [|destruct (data p) as [pid|]]; simpl.
  - set (w0 := with_ui (set_userType (Some student)) _).
    destruct (fetchStudentContacts_frame user_id w0) as (_ & Hui & _).
    simpl in Hui. rewrite Hui. simpl. split; [done|]. split; [done|].
    intros k. by rewrite (student_contacts_iff user_id w0 Hh k).
  - set (w0 := with_ui (set_userType (Some professional)) _).
    destruct (fetchProfessionalContacts_frame pid w0) as (_ & Hui & _).
    simpl in Hui. rewrite Hui. simpl. split; [done|]. split; [done|].
    intros k. by rewrite (professional_contacts_iff pid w0 Hh k).
  - done.
Qed.

Lemma initializeChat_role_witness :
  let after := (initializeChat SigningIn.ana SigningIn.start).2 in
  userType (ui after) = Some professional ∧
  contacts (ui after) = [Teaching.c_stu] ∧
  ∀ k, k ∈ contacts (ui after) ↔ student_contact Sample.database "ana" k.
Proof.
  intros after.
  destruct (initializeChat_role SigningIn.ana SigningIn.start
              {| data := Some "ana"; error := None |}
              {| data := None; error := None |}
              {| data := Some "ana"; error := None |} "ana")
    as (_ & Hrole & Hk); try reflexivity.
  - vm_compute. constructor.
  - split; [exact Hrole|]. split; [reflexivity|exact Hk].
Defined.

(* --------------------------------------------------------------------- *)
(** ** Chat screen: selecting a contact *)
(* --------------------------------------------------------------------- *)

Lemma fetchMessages_keeps (w : World) :
  let w' := (detached fetchMessages w).2 in
  ui w' = set_messages (messages (ui w')) (ui w) ∧
  List.filter is_toast (log w') = List.filter is_toast (log w).
Proof.
  destruct w as [[me ut cs sel ms nm ld sd] d pl chs cl ck us un lg].
  unfold detached, fetchMessages, mbind, M_bind, get. simpl.
  destruct sel as [contact|]; [|done].
  request_step; rewrite ?List.filter_app; simpl; rewrite ?app_nil_r;
    try done.
  rows_step; rewrite ?List.filter_app; simpl; rewrite ?app_nil_r;
    try done.
  request_step; rewrite ?List.filter_app; simpl; rewrite ?app_nil_r; done.
Qed.

Lemma select_contact_selected (w : World) (contact : Contact.t) :
  let w' := (select_contact contact w).2 in
  (select_contact contact w).1 = Returns tt ∧
  selectedContact (ui w') = Some contact ∧
  contacts (ui w') = contacts (ui w) ∧
  currentUserId (ui w') = currentUserId (ui w) ∧
  List.filter is_toast (log w') = List.filter is_toast (log w).
Proof.
  unfold select_contact, mbind, M_bind, get.
  destruct (decide (selectedContact (ui w) = Some contact)) as [He|Hne]; [done|].
  simpl.
  set (w0 := (run_cleanup (effect_cleanup w)
                (with_ui (set_selectedContact (Some contact)) w)).2).
  assert (Hw0 : run_cleanup (effect_cleanup w)
                  (with_ui (set_selectedContact (Some contact)) w)
                = (Returns tt, w0) ∧
                ui w0 = set_selectedContact (Some contact) (ui w) ∧
                log w0 = log w).
  { unfold w0. by destruct (effect_cleanup w) as [[ch]|]. }
  destruct Hw0 as (-> & Hui0 & Hlog0).
  unfold selectedContact_effect, mbind, M_bind, get.
  rewrite Hui0. simpl.
  destruct (fetchMessages_frame w0) as (Hret & Hsel & _).
  destruct (fetchMessages_keeps w0) as (Hui & Htoast).
  destruct (detached fetchMessages w0) as [c w1]. simpl in *. subst c.
  rewrite Hui0 in Hsel, Hui. simpl in Hsel.
  rewrite (subscribeToMessages_selected w1 contact Hsel). simpl.
  rewrite Hui, Htoast, Hlog0. done.
Qed.

Lemma find_first {A} (f : A → bool) (l : list A) (x : A) :
  List.find f l = Some x →
  ∃ i, l !! i = Some x ∧ f x = true ∧
       ∀ j y, (j < i)%nat → l !! j = Some y → f y = false.
Proof.
  induction l as [|a l IH]; simpl; [done|].
  destruct (f a) eqn:Hfa.
  - intros [= <-]. exists 0%nat. split; [done|]. split; [done|]. lia.
  - intros Hx. destruct (IH Hx) as (i & Hi & Hfx & Hbefore).
    exists (S i). split; [done|]. split; [done|].
    intros [|j] y Hj Hy; simpl in Hy.
    + by injection Hy as <-.
    + apply (Hbefore j); [lia|done].
Qed.

(** X7. The [?contact=] link selects a listed contact or nothing.  With an
    id that a listed contact carries, the first such contact of the list
    becomes the selection; with no parameter, an empty one, or an id no
    listed contact carries, nothing at all changes.  The contact list is
    never changed and no toast is shown. *)
Theorem searchParams_effect_selects (contact_param : option string) (w : World) :
  let after := (searchParams_effect contact_param w).2 in
  (searchParams_effect contact_param w).1 = Returns tt ∧
  contacts (ui after) = contacts (ui w) ∧
  List.filter is_toast (log after) = List.filter is_toast (log w) ∧
  (∀ contactId,
     contact_param = Some contactId → contactId ≠ "" →
     (∃ c, c ∈ contacts (ui w) ∧ Contact.id c = contactId) →
     ∃ i c, contacts (ui w) !! i = Some c ∧ Contact.id c = contactId ∧
            (∀ j c', (j < i)%nat → contacts (ui w) !! j = Some c' →
                     Contact.id c' ≠ contactId) ∧
            selectedContact (ui after) = Some c) ∧
  ((contact_param = None ∨ contact_param = Some "" ∨
    ∀ c, c ∈ contacts (ui w) → Some (Contact.id c) ≠ contact_param) →
   searchParams_effect contact_param w = (Returns tt, w)).
Proof.
  intros after. unfold after, searchParams_effect, mbind, M_bind, get.
  destruct contact_param as [cid|].
  2:{ split; [done|]. split; [done|]. split; [done|]. split; [|done].
      by intros ? [=]. }
  destruct (truthy_id cid) eqn:Ht; simpl.
  2:{ split; [done|]. split; [done|]. split; [done|]. split; [|done].
      intros ? [= <-] Hne. by destruct cid. }
  destruct (0 <? length (contacts (ui w)))%nat eqn:Hlen; simpl.
  2:{ apply Nat.ltb_ge in Hlen.
      split; [done|]. split; [done|]. split; [done|]. split; [|done].
      intros ? _ _ (c & Hin & _).
      destruct (contacts (ui w)) as [|a l]; [|simpl in Hlen; lia].
      by apply elem_of_nil in Hin. }
  destruct (List.find _ (contacts (ui w))) as [c|] eqn:Hfind.
  - destruct (select_contact_selected w c) as (Hret & Hsel & Hcs & _ & Htoast).
    destruct (find_first _ _ _ Hfind) as (i & Hi & Hid & Hbefore).
    apply bool_decide_eq_true in Hid.
    split; [done|]. split; [done|]. split; [done|]. split.
    + intros ? [= <-] _ _. exists i, c. split; [done|]. split; [done|].
      split; [|done]. intros j c' Hj Hc'.
      specialize (Hbefore j c' Hj Hc'). by apply bool_decide_eq_false in Hbefore.
    + intros [Hn|[Hn|Hn]]; [done|by injection Hn as ->|].
      exfalso. apply (Hn c); [by apply list_elem_of_lookup_2 in Hi|by rewrite Hid].
  - split; [done|]. split; [done|]. split; [done|]. split; [|done].
    intros ? [= <-] _ (c & Hin & Hid). exfalso.
    apply list_elem_of_In in Hin.
    pose proof (List.find_none _ _ Hfind c Hin) as Hf. simpl in Hf.
    by apply bool_decide_eq_false in Hf.
Qed.

Lemma searchParams_effect_selects_witness :
  selectedContact (ui (searchParams_effect (Some "bob") DeepLink.start).2)
  = Some Sample.c_bob ∧
  searchParams_effect (Some "eve") DeepLink.start = (Returns tt, DeepLink.start).
Proof.
  destruct (searchParams_effect_selects (Some "bob") DeepLink.start)
    as (_ & _ & _ & Hsel & _).
  destruct (searchParams_effect_selects (Some "eve") DeepLink.start)
    as (_ & _ & _ & _ & Hnone).
  split.
  - destruct (Hsel "bob" eq_refl) as (i & c & _ & _ & _ & Hc).
    + discriminate.
    + exists Sample.c_bob. split; [|reflexivity].
      apply list_elem_of_lookup. by exists 1%nat.
    + rewrite Hc. f_equal. vm_compute in Hc. by injection Hc.
  - apply Hnone. right. right. intros c Hc.
    apply elem_of_cons in Hc as [->|Hc]; [discriminate|].
    apply elem_of_cons in Hc as [->|Hc]; [discriminate|].
    by apply elem_of_nil in Hc.
Defined.

(** X8. While the message form is on screen, its submit button is enabled
    exactly when a submission would get past the guard of
    [handleSendMessage]: an enabled button never leads to a silently dropped
    message, and a blocked submission is always shown as disabled. *)
Theorem send_button_matches_guard (s : Screen) :
  form_rendered s = true →
  (send_button_disabled s = false ↔ ¬ send_blocked s).
Proof.
  unfold form_rendered, send_button_disabled, send_blocked.
  intros Hf. apply andb_true_iff in Hf as [_ Hsel].
  apply bool_decide_eq_true in Hsel as [c Hsel]. rewrite Hsel.
  destruct (sending s), (trim (newMessage s)) as [|a t]; simpl;
    split; try done; try (intros _ [H|[H|H]]; done); intros H; exfalso;
    apply H; auto.
Qed.

Lemma send_button_matches_guard_witness :
  send_button_disabled (ui (Sample.chatting (js " oi ") [])) = false ∧
  ¬ send_blocked (ui (Sample.chatting (js " oi ") [])).
Proof.
  assert (H : send_button_disabled (ui (Sample.chatting (js " oi ") [])) = false)
    by reflexivity.
  split; [exact H|].
  by apply (send_button_matches_guard (ui (Sample.chatting (js " oi ") []))).
Defined.

(* --------------------------------------------------------------------- *)
(** ** Chat Session: edges of the history load *)
(* --------------------------------------------------------------------- *)

Lemma conversation_empty (a b : string) (ms : list Message.t) :
  (∀ m, m ∈ ms → ¬ between a b m) →
  merge_sort created_at_le (filter (between a b) ms) = [].
Proof.
  intros Hno. apply list_nil_iff_no_elem. intros m Hm.
  apply loaded_elem_of in Hm as [Hin Hb]. by apply (Hno m).
Qed.

Lemma conversation_nonempty (a b : string) (ms : list Message.t) (m : Message.t) :
  m ∈ ms → between a b m →
  ∃ m0 rest, merge_sort created_at_le (filter (between a b) ms) = m0 :: rest.
Proof.
  intros Hin Hb.
  destruct (merge_sort _ _) as [|m0 rest] eqn:E; [|eauto].
  exfalso. apply (not_elem_of_nil m). rewrite <- E. by apply loaded_elem_of.
Qed.

(** X9. Opening a conversation in which no message has been exchanged
    sends the history query and nothing else: the list is emptied, no
    mark-read update is issued and the database is untouched. *)
Theorem fetchMessages_empty_conversation (w : World) (contact : Contact.t) :
  selectedContact (ui w) = Some contact →
  next_fate w = Honest →
  (∀ m, m ∈ private_messages (db w) →
        ¬ between (currentUserId (ui w)) (Contact.id contact) m) →
  let after := (fetchMessages w).2 in
  (fetchMessages w).1 = Returns tt ∧
  messages (ui after) = [] ∧
  db after = db w ∧
  log after = log w ++
    [Called (SelectConversation (currentUserId (ui w)) (Contact.id contact)) Honest].
Proof.
  intros Hsel Hf Hno.
  unfold fetchMessages, mbind, M_bind, get. rewrite Hsel.
  rewrite request_honest by exact Hf. simpl.
  by rewrite (conversation_empty _ _ _ Hno).
Qed.

Lemma fetchMessages_empty_conversation_witness :
  let w := Sample.world
             (Sample.screen [Sample.c_ana; Sample.c_bob]
                (Some (contact_of professional Sample.stu)) []) [] in
  messages (ui (fetchMessages w).2) = [] ∧
  log (fetchMessages w).2 = [Called (SelectConversation "stu" "stu") Honest].
Proof.
  intros w.
  destruct (fetchMessages_empty_conversation w (contact_of professional Sample.stu))
    as (_ & Hm & _ & Hlog).
  - reflexivity.
  - reflexivity.
  - intros m Hm. vm_compute in Hm.
    repeat (apply elem_of_cons in Hm as [->|Hm];
            [intros [[H1 H2]|[H1 H2]]; discriminate|]).
    by apply elem_of_nil in Hm.
  - split; [exact Hm|exact Hlog].
Defined.

(** X10. The outcome of the mark-read update is never looked at.  When the
    history is loaded and the update then fails, the conversation is on
    screen, nothing is marked read and nothing tells the user: with an error
    result the load completes normally with neither toast nor console line;
    with a rejected promise the load itself ends in that error, which the
    effect that started it lets go unhandled. *)
Theorem fetchMessages_mark_read_failure (w : World) (contact : Contact.t)
    (f : Fate) (e : Error) (rest : list Fate) (m : Message.t) :
  selectedContact (ui w) = Some contact →
  plan w = Honest :: f :: rest →
  f = ErrorResult e ∨ f = Rejects e →
  m ∈ private_messages (db w) →
  between (currentUserId (ui w)) (Contact.id contact) m →
  let me := currentUserId (ui w) in
  let them := Contact.id contact in
  let after := (fetchMessages w).2 in
  (fetchMessages w).1 = (if f is Rejects _ then Throws e else Returns tt) ∧
  messages (ui after)
  = merge_sort created_at_le (filter (between me them) (private_messages (db w))) ∧
  db after = db w ∧
  log after = log w ++ [Called (SelectConversation me them) Honest;
                        Called (MarkRead me them) f] ∧
  log (detached fetchMessages w).2
  = log after ++ (if f is Rejects _ then [UnhandledRejection e] else []).
Proof.
  intros Hsel Hplan Hfate Hin Hb me them after.
  destruct (conversation_nonempty me them _ m Hin Hb) as (m0 & l0 & Hconv).
  assert (Hf1 : next_fate w = Honest) by (unfold next_fate; by rewrite Hplan).
  unfold after, detached, fetchMessages, mbind, M_bind, get. rewrite Hsel.
  rewrite request_honest by exact Hf1. simpl. fold me them.
  rewrite Hconv. simpl.
  set (w1 := with_ui _ _).
  assert (Hf2 : next_fate w1 = f) by (unfold next_fate; simpl; by rewrite Hplan).
  destruct Hfate as [->| ->].
  - rewrite (request_error _ _ e Hf2). simpl.
    by rewrite <- !app_assoc, app_nil_r.
  - rewrite (request_rejects _ _ e Hf2). simpl.
    by rewrite <- !app_assoc.
Qed.

Lemma fetchMessages_mark_read_failure_witness :
  let w := Sample.chatting [] [Honest; Rejects Sample.boom] in
  (fetchMessages w).1 = Throws Sample.boom ∧
  db (fetchMessages w).2 = db w ∧
  length (messages (ui (fetchMessages w).2)) = 3%nat.
Proof.
  intros w.
  destruct (fetchMessages_mark_read_failure w Sample.c_ana
              (Rejects Sample.boom) Sample.boom []
              (Sample.msg "m1" "ana" "stu" true 30%N))
    as (Hret & Hm & Hdb & _).
  - reflexivity.
  - reflexivity.
  - by right.
  - apply list_elem_of_lookup. by exists 0%nat.
  - right. split; reflexivity.
  - split; [exact Hret|]. split; [exact Hdb|]. rewrite Hm. reflexivity.
Defined.

(* --------------------------------------------------------------------- *)
(** ** Chat Session: what is sent *)
(* --------------------------------------------------------------------- *)

Lemma trimStart_head (s : jsstring) (c : N) (r : jsstring) :
  trimStart s = c :: r → is_js_whitespace c = false.
Proof.
  induction s as [|a s IH]; simpl; [done|].
  destruct (is_js_whitespace a) eqn:Ha; [exact IH|].
  by intros [= <- _].
Qed.

Lemma trimStart_suffix (s : jsstring) : ∃ pre, s = pre ++ trimStart s.
Proof.
  induction s as [|a s [pre IH]]; simpl; [by exists []|].
  destruct (is_js_whitespace a).
  - exists (a :: pre). simpl. by rewrite <- IH.
  - by exists [].
Qed.

Lemma trim_prefix (s : jsstring) : ∃ post, trimStart s = trim s ++ post.
Proof.
  unfold trim, trimEnd.
  destruct (trimStart_suffix (rev (trimStart s))) as [pre Hpre].
  exists (rev pre).
  rewrite <- (rev_involutive (trimStart s)) at 1.
  rewrite Hpre at 1. by rewrite rev_app_distr.
Qed.

Lemma trim_ends (s : jsstring) :
  (∀ c, head (trim s) = Some c → is_js_whitespace c = false) ∧
  (∀ c, last (trim s) = Some c → is_js_whitespace c = false).
Proof.
  split; intros c Hc.
  - destruct (trim_prefix s) as [post Hpost].
    destruct (trim s) as [|c0 t]; [done|]. injection Hc as ->.
    by apply (trimStart_head s c (t ++ post)).
  - unfold trim, trimEnd in Hc.
    destruct (trimStart (rev (trimStart s))) as [|c0 t] eqn:E; [done|].
    simpl in Hc. rewrite last_snoc in Hc. injection Hc as ->.
    by apply (trimStart_head _ _ _ E).
Qed.

(** X11. When a submission gets past the guard and the insert is served,
    the row stored and the entry echoed on screen agree on sender,
    recipient, text and read flag; the text is the input without its
    surrounding white space, so it is not empty and neither begins nor ends
    with a white-space character. *)
Theorem echo_matches_stored_row (w : World) :
  ¬ send_blocked (ui w) →
  next_fate w = Honest →
  let after := (handleSendMessage w).2 in
  ∃ stored echo,
    private_messages (db after) = private_messages (db w) ++ [stored] ∧
    messages (ui after) = messages (ui w) ++ [echo] ∧
    Message.sender_id echo = Message.sender_id stored ∧
    Message.recipient_id echo = Message.recipient_id stored ∧
    Message.content echo = Message.content stored ∧
    Message.read echo = Message.read stored ∧
    Message.content stored = trim (newMessage (ui w)) ∧
    Message.content stored ≠ [] ∧
    (∀ c, head (Message.content stored) = Some c → is_js_whitespace c = false) ∧
    (∀ c, last (Message.content stored) = Some c → is_js_whitespace c = false).
Proof.
  intros Hn Hf after.
  destruct (not_blocked _ Hn) as (contact & Hsel & Ht & Hs).
  destruct (two_rapid_sends_eq w contact Hsel Ht Hs)
    as (f & w1 & _ & _ & _ & Hsend & Hw1 & Hme & Hc & Htext & Hp).
  set (ins := InsertMessage _ _ _) in *.
  destruct (perform_frame ins (with_ui (set_sending true) w)) as (Hui & _).
  rewrite <- Hw1 in Hui.
  pose proof (perform_insert_db (currentUserId (ui w)) (Contact.id contact)
                (trim (newMessage (ui w))) (with_ui (set_sending true) w)) as Hdb.
  fold ins in Hdb. rewrite <- Hw1 in Hdb.
  change (next_fate (with_ui (set_sending true) w)) with (next_fate w) in Hdb.
  rewrite Hf in Hdb. simpl in Hdb.
  unfold perform, dispatch in Hp.
  change (next_fate (with_ui (set_sending true) w)) with (next_fate w) in Hp.
  rewrite Hf in Hp. simpl in Hp. injection Hp as Hp _.
  unfold after. rewrite Hsend.
  rewrite (resume_fulfilled f w1 _ (eq_sym Hp) eq_refl). simpl.
  rewrite Hdb, Hui, Hme, Hc, Htext. simpl.
  eexists _, _. split; [reflexivity|]. split; [reflexivity|]. simpl.
  destruct (trim_ends (newMessage (ui w))) as [Hhead Hlast].
  repeat split; done.
Qed.

Lemma echo_matches_stored_row_witness :
  ∃ stored,
    last (private_messages (db (handleSendMessage
                                  (Sample.chatting (js " oi ") [])).2))
    = Some stored ∧
    Message.content stored = js "oi".
Proof.
  destruct (echo_matches_stored_row (Sample.chatting (js " oi ") []))
    as (stored & echo & Hdb & _ & _ & _ & _ & _ & Hc & _).
  - intros [H|[H|H]]; discriminate H.
  - reflexivity.
  - exists stored. split; [|exact Hc].
    rewrite Hdb. apply last_snoc.
Defined.

(* --------------------------------------------------------------------- *)
(** ** Chat Session: switching between conversations *)
(* --------------------------------------------------------------------- *)

Lemma select_contact_run (w : World) (contact : Contact.t) :
  selectedContact (ui w) ≠ Some contact →
  effect_cleanup w = None →
  let w0 := with_ui (set_selectedContact (Some contact)) w in
  let w1 := (detached fetchMessages w0).2 in
  let ch := {| topic := "private-chat-" +:+ currentUserId (ui w) +:+ "-"
                          +:+ Contact.id contact;
               filter_sender_id := Contact.id contact;
               closure_currentUserId := currentUserId (ui w) |} in
  select_contact contact w =
    (Returns tt, with_effect_cleanup None (with_channels (λ l, l ++ [ch]) w1)).
Proof.
  intros Hne Hcl.
  unfold select_contact, mbind, M_bind, get.
  rewrite decide_False by exact Hne. rewrite Hcl. simpl.
  set (w0 := with_ui (set_selectedContact (Some contact)) w).
  unfold selectedContact_effect, mbind, M_bind, get.
  change (selectedContact (ui w0)) with (Some contact).
  destruct (fetchMessages_frame w0) as (Hret & Hsel & Hme & _).
  destruct (detached fetchMessages w0) as [c w1]. simpl in *. subst c.
  rewrite (subscribeToMessages_selected w1 contact Hsel). simpl.
  by rewrite Hme.
Qed.

(** X12. Selecting another contact while the server answers puts exactly
    the conversation with that contact on screen, in ascending order of
    [created_at]: nothing of the conversation shown before remains. *)
Theorem select_contact_shows_conversation (w : World) (contact : Contact.t) :
  selectedContact (ui w) ≠ Some contact →
  effect_cleanup w = None →
  honest_server w →
  let after := (select_contact contact w).2 in
  selectedContact (ui after) = Some contact ∧
  (∀ m, m ∈ messages (ui after)
        ↔ m ∈ private_messages (db w) ∧
          parties_are (currentUserId (ui w)) (Contact.id contact) m) ∧
  StronglySorted created_at_le (messages (ui after)).
Proof.
  intros Hne Hcl Hh after. unfold after.
  rewrite (select_contact_run w contact Hne Hcl). simpl.
  set (w0 := with_ui (set_selectedContact (Some contact)) w).
  pose proof (fetchMessages_honest w0 contact eq_refl Hh) as E. simpl in E.
  unfold detached. rewrite E. simpl.
  assert (Hin : ∀ m, m ∈ merge_sort created_at_le
                          (filter (between (currentUserId (ui w)) (Contact.id contact))
                                  (private_messages (db w)))
                     ↔ m ∈ private_messages (db w) ∧
                       parties_are (currentUserId (ui w)) (Contact.id contact) m).
  { intros m. rewrite loaded_elem_of. unfold parties_are.
    by rewrite between_parties. }
  assert (Hsorted : StronglySorted created_at_le
                      (merge_sort created_at_le
                         (filter (between (currentUserId (ui w)) (Contact.id contact))
                                 (private_messages (db w)))))
    by (apply StronglySorted_merge_sort; apply _).
  set (loaded := merge_sort _ _) in *. clearbody loaded. clear E.
  by destruct loaded.
Qed.

Lemma select_contact_shows_conversation_witness :
  let w := with_ui (set_messages [Sample.msg "m3" "bob" "stu" true 5%N])
             (Sample.world
                (Sample.screen [Sample.c_ana; Sample.c_bob] (Some Sample.c_bob) [])
                []) in
  messages (ui (select_contact Sample.c_ana w).2)
  = [Sample.msg "m2" "stu" "ana" true 10%N;
     Sample.msg "m4" "ana" "stu" false 20%N;
     Sample.msg "m1" "ana" "stu" true 30%N] ∧
  StronglySorted created_at_le (messages (ui (select_contact Sample.c_ana w).2)).
Proof.
  intros w. split; [reflexivity|].
  apply (select_contact_shows_conversation w Sample.c_ana).
  - discriminate.
  - reflexivity.
  - vm_compute. constructor.
Defined.

Lemma broadcast_app (l1 l2 : list Channel) (row : Message.t) (w : World) :
  broadcast (l1 ++ l2) row w = broadcast l2 row (broadcast l1 row w).2.
Proof.
  revert w. induction l1 as [|ch l1 IH]; intros w; simpl; [done|].
  unfold mbind, M_bind. rewrite deliver_eq. simpl. apply IH.
Qed.

(** X13. Selecting another contact while the history query fails leaves
    the conversation shown before on screen under the new contact, with no
    toast; the channel of the new contact is joined all the same, so the
    next message of the new contact is appended to the old conversation. *)
Theorem select_contact_failed_load (w : World) (contact : Contact.t) (e : Error) :
  selectedContact (ui w) ≠ Some contact →
  effect_cleanup w = None →
  next_fate w = ErrorResult e ∨ next_fate w = Rejects e →
  let after := (select_contact contact w).2 in
  selectedContact (ui after) = Some contact ∧
  messages (ui after) = messages (ui w) ∧
  List.filter is_toast (log after) = List.filter is_toast (log w) ∧
  ∀ row,
    Message.sender_id row = Contact.id contact →
    Message.recipient_id row = currentUserId (ui w) →
    Forall (λ ch, filter_sender_id ch ≠ Contact.id contact) (channels w) →
    messages (ui (realtime_insert row after).2) = messages (ui w) ++ [row].
Proof.
  intros Hne Hcl Hf after. unfold after.
  rewrite (select_contact_run w contact Hne Hcl). simpl.
  set (w0 := with_ui (set_selectedContact (Some contact)) w).
  assert (Hf0 : next_fate w0 = next_fate w) by reflexivity.
  assert (Hrun : ∃ evs, (detached fetchMessages w0).2
                        = with_log (λ l, l ++ evs) (sent
                            (SelectConversation (currentUserId (ui w)) (Contact.id contact))
                            (next_fate w) w0)
                        ∧ List.filter is_toast evs = []).
  { unfold detached, fetchMessages, mbind, M_bind, get. simpl.
    destruct Hf as [Hf|Hf].
    - rewrite (request_error _ w0 e) by (by rewrite Hf0). simpl.
      rewrite Hf. by exists [ConsoleError "Error fetching messages:" e].
    - rewrite (request_rejects _ w0 e) by (by rewrite Hf0). simpl.
      rewrite Hf. by exists [UnhandledRejection e]. }
  destruct Hrun as (evs & -> & Hevs). simpl.
  split; [done|]. split; [done|]. split.
  { rewrite !List.filter_app, Hevs. simpl. by rewrite !app_nil_r. }
  intros row Hs Hr Hold.
  unfold realtime_insert, mbind, M_bind, get. simpl.
  rewrite broadcast_app.
  rewrite (broadcast_own_row (channels w))
    by (eapply Forall_impl; [exact Hold|]; simpl; intros ch H; by rewrite Hs).
  simpl. unfold mbind, M_bind. rewrite deliver_eq. simpl.
  by rewrite decide_True.
Qed.

Lemma select_contact_failed_load_witness :
  let shown := [Sample.msg "m3" "bob" "stu" true 5%N] in
  let w := with_ui (set_messages shown)
             (Sample.world
                (Sample.screen [Sample.c_ana; Sample.c_bob] (Some Sample.c_bob) [])
                [ErrorResult Sample.boom]) in
  selectedContact (ui (select_contact Sample.c_ana w).2) = Some Sample.c_ana ∧
  messages (ui (select_contact Sample.c_ana w).2) = shown.
Proof.
  intros shown w.
  destruct (select_contact_failed_load w Sample.c_ana Sample.boom)
    as (Hsel & Hm & _).
  - discriminate.
  - reflexivity.
  - by left.
  - split; [exact Hsel|exact Hm].
Defined.

(* --------------------------------------------------------------------- *)
(** ** Enrollment Viewer: loading and toggling *)
(* --------------------------------------------------------------------- *)

Lemma notifState_fold (l : list Item.t) (acc : gmap string bool) (k : string) :
  fold_left (λ notifState cls, <[Item.key cls := true]> notifState) l acc !! k
  = if decide (k ∈ Item.key <$> l) then Some true else acc !! k.
Proof.
  revert acc. induction l as [|a l IH]; intros acc.
  - reflexivity.
  - change (fold_left _ (a :: l) acc)
      with (fold_left (λ notifState cls, <[Item.key cls := true]> notifState) l
              (<[Item.key a := true]> acc)).
    rewrite IH, fmap_cons.
    destruct (decide (k ∈ Item.key <$> l)) as [Hin|Hnin].
    + rewrite decide_True; [done|by right].
    + destruct (decide (k = Item.key a)) as [->|Hne].
      * rewrite decide_True by left. apply lookup_insert_eq.
      * rewrite decide_False.
        -- by rewrite lookup_insert_ne.
        -- intros Hin. apply elem_of_cons in Hin as [?|?]; done.
Qed.

Lemma notifState_of_lookup (l : list Item.t) (k : string) :
  MyClassesScreen.notifState_of l !! k
  = if decide (k ∈ Item.key <$> l) then Some true else None.
Proof.
  unfold MyClassesScreen.notifState_of. rewrite notifState_fold.
  by rewrite lookup_empty.
Qed.

(** X14. A successful load lists one item per row returned, in order, and
    gives exactly the listed classes a notification flag, all of them on:
    whatever flags the screen held before are gone.  It shows nothing and
    ends the loading state. *)
Theorem fetchEnrolledClasses_success
    (getUser : Settled string) (query : string → Settled (list Joined.t))
    (s : MyClassesScreen.State)
    (auth : Response string) (user_id : string) (r : Response (list Joined.t)) :
  getUser = Fulfilled auth → data auth = Some user_id →
  query user_id = Fulfilled r → error r = None →
  let after := MyClassesScreen.fetchEnrolledClasses getUser query s in
  let flags := MyClasses.notifications (MyClassesScreen.view after) in
  MyClassesScreen.loading after = false ∧
  length (MyClassesScreen.enrolledClasses after) = length (default [] (data r)) ∧
  (∀ i e, default [] (data r) !! i = Some e →
          MyClassesScreen.enrolledClasses after !! i
          = Some {| Item.enrollmentId := Joined.id e;
                    Item.spread := Joined.classes e |}) ∧
  (∀ item, item ∈ MyClassesScreen.enrolledClasses after →
           flags !! Item.key item = Some true) ∧
  (∀ k, is_Some (flags !! k) →
        ∃ item, item ∈ MyClassesScreen.enrolledClasses after ∧ Item.key item = k) ∧
  (∀ s', MyClasses.notifications
           (MyClassesScreen.view
              (MyClassesScreen.fetchEnrolledClasses getUser query s')) = flags) ∧
  MyClasses.effects (MyClassesScreen.view after)
  = MyClasses.effects (MyClassesScreen.view s).
Proof.
  intros Hg Ha Hq He after flags.
  unfold flags, after, MyClassesScreen.fetchEnrolledClasses.
  rewrite Hg, Ha, Hq, He. simpl.
  split; [done|]. split; [|split; [|split; [|split; [|done]]]].
  - destruct (data r); simpl; [by rewrite length_fmap|done].
  - intros i e Hi. destruct (data r); simpl in *; [|done].
    by rewrite list_lookup_fmap, Hi.
  - intros item Hin. rewrite notifState_of_lookup.
    rewrite decide_True; [done|]. apply list_elem_of_fmap. eauto.
  - intros k [b Hk]. rewrite notifState_of_lookup in Hk.
    destruct (decide _) as [Hin|]; [|done].
    apply list_elem_of_fmap in Hin as (item & -> & Hin). eauto.
Qed.

Lemma fetchEnrolledClasses_success_witness :
  let after := MyClassesScreen.fetchEnrolledClasses
                 (fulfilled (Some "stu")) Loaded.query Loaded.before in
  MyClasses.notifications (MyClassesScreen.view after) !! "k1" = Some true ∧
  MyClasses.notifications (MyClassesScreen.view after) !! "undefined" = Some true ∧
  length (MyClassesScreen.enrolledClasses after) = 2%nat.
Proof.
  intros after.
  destruct (fetchEnrolledClasses_success (fulfilled (Some "stu")) Loaded.query
              Loaded.before {| data := Some "stu"; error := None |} "stu"
              {| data := Some Loaded.rows; error := None |})
    as (_ & Hlen & Hitems & Hon & _); try reflexivity.
  split; [|split; [|exact Hlen]].
  - apply (Hon {| Item.enrollmentId := "e1"; Item.spread := Some Loaded.yoga |}).
    apply list_elem_of_lookup. exists 0%nat. reflexivity.
  - apply (Hon {| Item.enrollmentId := "e2"; Item.spread := None |}).
    apply list_elem_of_lookup. exists 1%nat. reflexivity.
Defined.

(** X15. A load that fails, for want of a session or through the query,
    shows one destructive toast with the error's text and leaves the listed
    classes and the flags as they were; and every load, failed or not, ends
    the loading state. *)
Theorem fetchEnrolledClasses_failure
    (getUser : Settled string) (query : string → Settled (list Joined.t))
    (s : MyClassesScreen.State) :
  let after := MyClassesScreen.fetchEnrolledClasses getUser query s in
  MyClassesScreen.loading after = false ∧
  ∀ e, MyClassesScreen.LoadFails getUser query e →
       MyClassesScreen.enrolledClasses after = MyClassesScreen.enrolledClasses s ∧
       MyClasses.notifications (MyClassesScreen.view after)
       = MyClasses.notifications (MyClassesScreen.view s) ∧
       MyClasses.effects (MyClassesScreen.view after)
       = MyClasses.effects (MyClassesScreen.view s) ++
         [Toast "Erro ao carregar turmas" (message e) (Some "destructive")].
Proof.
  intros after. split; [done|].
  intros e Hfail. unfold after, MyClassesScreen.fetchEnrolledClasses.
  destruct Hfail as [e Hg|auth Hg Ha|auth uid e Hg Ha Hq|auth uid r e Hg Ha Hq He];
    rewrite Hg; try rewrite Ha; try rewrite Hq; try rewrite He; done.
Qed.

Lemma fetchEnrolledClasses_failure_witness :
  let after := MyClassesScreen.fetchEnrolledClasses
                 (fulfilled None) Loaded.query Loaded.before in
  MyClasses.notifications (MyClassesScreen.view after) = {[ "k1" := false ]} ∧
  MyClasses.effects (MyClassesScreen.view after)
  = [Toast "Erro ao carregar turmas" "Usuário não autenticado" (Some "destructive")].
Proof.
  intros after.
  destruct (fetchEnrolledClasses_failure (fulfilled None) Loaded.query Loaded.before)
    as [_ H].
  destruct (H {| message := "Usuário não autenticado" |}) as (_ & Hn & He).
  - by apply (MyClassesScreen.no_user _ _ {| data := None; error := None |}).
  - split; [exact Hn|exact He].
Defined.

(** X16. After a successful load, switching a listed class off and on
    again works as shown: the first toggle turns its flag off with the
    "desativadas" confirmation, the second brings the flags back to exactly
    what the load produced, and the list of classes is never affected. *)
Theorem toggle_after_load
    (getUser : Settled string) (query : string → Settled (list Joined.t))
    (s : MyClassesScreen.State)
    (auth : Response string) (user_id : string) (r : Response (list Joined.t))
    (item : Item.t) :
  getUser = Fulfilled auth → data auth = Some user_id →
  query user_id = Fulfilled r → error r = None →
  let loaded := MyClassesScreen.fetchEnrolledClasses getUser query s in
  item ∈ MyClassesScreen.enrolledClasses loaded →
  let once := MyClassesScreen.toggle (Item.key item) loaded in
  let twice := MyClassesScreen.toggle (Item.key item) once in
  MyClasses.flag (MyClassesScreen.view once) (Item.key item) = false ∧
  MyClasses.effects (MyClassesScreen.view once)
  = MyClasses.effects (MyClassesScreen.view s) ++ [toast_disabled] ∧
  MyClasses.notifications (MyClassesScreen.view twice)
  = MyClasses.notifications (MyClassesScreen.view loaded) ∧
  MyClassesScreen.enrolledClasses twice = MyClassesScreen.enrolledClasses loaded.
Proof.
  intros Hg Ha Hq He loaded Hin once twice.
  assert (Hon : MyClasses.notifications (MyClassesScreen.view loaded)
                  !! Item.key item = Some true).
  { revert Hin. unfold loaded, MyClassesScreen.fetchEnrolledClasses.
    rewrite Hg, Ha, Hq, He. simpl. intros Hin.
    rewrite notifState_of_lookup. rewrite decide_True; [done|].
    apply list_elem_of_fmap. eauto. }
  assert (Heff : MyClasses.effects (MyClassesScreen.view loaded)
                 = MyClasses.effects (MyClassesScreen.view s)).
  { unfold loaded, MyClassesScreen.fetchEnrolledClasses.
    by rewrite Hg, Ha, Hq, He. }
  clearbody loaded.
  assert (Hflag : MyClasses.flag (MyClassesScreen.view once) (Item.key item) = false).
  { unfold once, MyClassesScreen.toggle. simpl. rewrite toggle_flag.
    unfold MyClasses.flag. by rewrite Hon. }
  split; [exact Hflag|]. split; [|split; [|done]].
  - assert (Hflag' : MyClasses.flag
                       (MyClasses.toggleNotifications (Item.key item)
                          (MyClassesScreen.view loaded)) (Item.key item) = false)
      by exact Hflag.
    unfold once, MyClassesScreen.toggle. cbn [MyClassesScreen.view].
    by rewrite toggle_effects, Hflag', Heff.
  - unfold twice, once, MyClassesScreen.toggle, MyClasses.toggleNotifications.
    simpl. rewrite lookup_insert_eq, insert_insert_eq, Hon. simpl.
    by apply insert_id.
Qed.

Lemma toggle_after_load_witness :
  let loaded := MyClassesScreen.fetchEnrolledClasses
                  (fulfilled (Some "stu")) Loaded.query Loaded.before in
  MyClasses.flag (MyClassesScreen.view (MyClassesScreen.toggle "k1" loaded)) "k1"
  = false.
Proof.
  intros loaded.
  apply (toggle_after_load (fulfilled (Some "stu")) Loaded.query Loaded.before
           {| data := Some "stu"; error := None |} "stu"
           {| data := Some Loaded.rows; error := None |}
           {| Item.enrollmentId := "e1"; Item.spread := Some Loaded.yoga |});
    try reflexivity.
  apply list_elem_of_lookup. by exists 0%nat.
Defined.

(** X17. Toggling a class that has no flag yet, and whose id is not the
    name of a member inherited from [Object.prototype], turns it on, with
    the "ativadas" confirmation.  A toggle never changes the stored flag of
    another class, and toggles of two different classes give the same flags
    in either order. *)
Theorem toggleNotifications_edges (a b : string) (s : MyClasses.State) :
  (MyClasses.notifications s !! a = None →
   a ∉ Object_prototype_names →
   MyClasses.notifications (MyClasses.toggleNotifications a s) !! a = Some true ∧
   MyClasses.effects (MyClasses.toggleNotifications a s)
   = MyClasses.effects s ++ [toast_enabled]) ∧
  (a ≠ b →
   MyClasses.notifications (MyClasses.toggleNotifications a s) !! b
   = MyClasses.notifications s !! b ∧
   MyClasses.notifications
     (MyClasses.toggleNotifications a (MyClasses.toggleNotifications b s))
   = MyClasses.notifications
       (MyClasses.toggleNotifications b (MyClasses.toggleNotifications a s))).
Proof.
  split.
  - intros Hnone _. unfold MyClasses.toggleNotifications. simpl.
    rewrite lookup_insert_eq, Hnone. done.
  - intros Hne. unfold MyClasses.toggleNotifications. simpl. split.
    + by rewrite lookup_insert_ne.
    + rewrite !lookup_insert_ne by done. by apply insert_insert_ne.
Qed.

Lemma toggleNotifications_edges_witness :
  let s := classes_screen [("k1", true)] in
  MyClasses.notifications (MyClasses.toggleNotifications "k7" s) !! "k7" = Some true ∧
  MyClasses.notifications (MyClasses.toggleNotifications "k7" s) !! "k1" = Some true.
Proof.
  intros s.
  destruct (toggleNotifications_edges "k7" "k1" s) as [Hmissing Hother].
  split.
  - apply Hmissing; [reflexivity|]. apply (bool_decide_unpack _). by vm_compute.
  - destruct Hother as [-> _]; [discriminate|reflexivity].
Defined.

(** X18. Over any session of clicks that each change the selection and
    never open a topic that is already joined, starting with no cleanup
    registered, the joined channels are those joined before plus one per
    click, in order: none is ever closed, React is never handed a cleanup,
    and leaving the screen closes nothing. *)
Theorem selections_accumulate_channels (cs : list Contact.t) (w : World) :
  effect_cleanup w = None →
  each_changes (selectedContact (ui w)) cs →
  fresh_topics w cs →
  let after := (select_each cs w).2 in
  (select_each cs w).1 = Returns tt ∧
  channels after = channels w ++ (channel_for (currentUserId (ui w)) <$> cs) ∧
  NoDup (topic <$> channels after) ∧
  effect_cleanup after = None ∧
  channels (unmount after).2 = channels after.
Proof.
  revert w. induction cs as [|c cs IH]; intros w Hcl Hch Hfresh; simpl.
  - unfold fresh_topics in Hfresh. simpl in Hfresh.
    rewrite app_nil_r in *. unfold unmount, mbind, M_bind, get. by rewrite Hcl.
  - destruct Hch as [Hne Hrest].
    destruct (select_contact_accumulates w c Hne Hcl) as (Hret & Hsel & Hcl1 & Hchs).
    destruct (select_contact_selected w c) as (_ & _ & _ & Hme & _).
    unfold mbind, M_bind.
    destruct (select_contact c w) as [r w1]. simpl in *. subst r.
    rewrite <- Hsel in Hrest.
    assert (Hfresh1 : fresh_topics w1 cs).
    { unfold fresh_topics in *. rewrite Hchs, Hme, <- app_assoc. exact Hfresh. }
    destruct (IH w1 Hcl1 Hrest Hfresh1) as (Hret2 & Hchs2 & Hnd & Hcl2 & Hun).
    split; [exact Hret2|]. split; [|split; [exact Hnd|split; [exact Hcl2|exact Hun]]].
    by rewrite Hchs2, Hchs, Hme, <- app_assoc.
Qed.

Lemma selections_accumulate_channels_witness :
  channels (select_each [Sample.c_ana; Sample.c_bob] Switching.start).2
  = [Switching.ch_ana; Switching.ch_bob].
Proof.
  destruct (selections_accumulate_channels
              [Sample.c_ana; Sample.c_bob] Switching.start)
    as (_ & Hch & _).
  - reflexivity.
  - repeat split; discriminate.
  - unfold fresh_topics. apply (bool_decide_unpack _). by vm_compute.
  - exact Hch.
Defined.
